(** * The thermal image region editor (undamaged_to_damaged_convertor.py)

    A shallow embedding of [ThermalImageEditor]: the working array and the
    retained original live in a store of arrays addressed by reference, so
    that in-place writes ([self.data[mask] = fill_value]) and copies
    ([.copy()]) are told apart; the handlers are functions from one editor
    state to the next, paired with the messages they print or pop up.

    Conventions.
    - Temperatures and mouse coordinates are [float] in the program; they are
      rationals here.  No handler does arithmetic on a stored temperature: it
      copies, compares and overwrites them.  The statistics shown to the user
      (mean, minimum, maximum) are kept exact where the program rounds them to
      three decimals for display.
      A numeric table is read as a float64 array, or as an int64 array when
      every cell of the file is integer text; an array keeps its dtype through
      copies, and a value written into it is converted to that dtype.  A file
      with cells that are not numbers is outside the model.
    - A 2-D array is its shape and its cells in row-major order, as numpy
      stores it.  Pixel (r, c) is cell [r * cols + c].
    - Drawing calls ([ax.plot], [canvas.draw], the patch [remove]) touch the
      figure only.  The figure is not part of the state; of the patch only
      its presence ([self.polygon]) is.  An editor that holds a working array
      stands for one whose plot is set up, as [run] leaves it; one without
      has no figure, and [refresh_display] raises on it.
    - The containment test of the plotting toolkit ([Path.contains_points])
      is a parameter of the development. *)

From Stdlib Require Import ZArith QArith Qminmax Lia.
From stdpp Require Import base option list strings pretty.

Local Open Scope nat_scope.

(** ** Arrays *)

Inductive dtype : Type := float64 | int64 | bool_.

Record ndarray (A : Type) : Type := mk_ndarray {
  dtype_of : dtype;         (* a.dtype *)
  shape : nat * nat;        (* (rows, cols) *)
  flat : list A             (* row-major cells *)
}.
Arguments mk_ndarray {A} _ _ _.
Arguments dtype_of {A} _.
Arguments shape {A} _.
Arguments flat {A} _.

Definition nrows {A} (a : ndarray A) : nat := fst (shape a).
Definition ncols {A} (a : ndarray A) : nat := snd (shape a).

(** [a] really has [rows * cols] cells. *)
Definition well_shaped {A} (a : ndarray A) : Prop :=
  length (flat a) = nrows a * ncols a.

(** [a[r, c]] *)
Definition pixel {A} (a : ndarray A) (r c : nat) : option A :=
  if (r <? nrows a) && (c <? ncols a) then flat a !! (r * ncols a + c) else None.

#[global] Instance ndarray_inhabited {A} : Inhabited (ndarray A) :=
  populate (mk_ndarray float64 (0, 0) []).

(** [np.any(mask)] *)
Definition np_any (mask : ndarray bool) : bool := existsb id (flat mask).

(** [np.sum(mask)]: the number of true entries. *)
Definition np_sum (mask : ndarray bool) : nat := length (filter (λ b, b = true) (flat mask)).

(** [a[mask]]: the cells selected by the mask, in row-major order.
    numpy raises IndexError when the shapes differ. *)
Fixpoint select_cells {A} (cells : list A) (bits : list bool) : list A :=
  match cells, bits with
  | x :: cells', b :: bits' =>
      if b then x :: select_cells cells' bits' else select_cells cells' bits'
  | _, _ => []
  end.

Definition getitem_mask {A} (a : ndarray A) (mask : ndarray bool) : option (list A) :=
  if decide (shape a = shape mask) then Some (select_cells (flat a) (flat mask)) else None.

(** [int(x)] on a float: truncation toward zero. *)
Definition int (x : Q) : Z := Z.quot (Qnum x) (Zpos (Qden x)).

(** A float converted to the dtype of the array it is written into: an
    integer array takes it truncated toward zero, a boolean array takes
    whether it is not zero (as 1 or 0). *)
Definition astype (dt : dtype) (v : Q) : Q :=
  match dt with
  | float64 => v
  | int64 => inject_Z (int v)
  | bool_ => if Qeq_bool v 0 then 0%Q else 1%Q
  end.

(** [a[mask] = v]: overwrite the selected cells with [v], converted to the
    dtype of [a]; keep the others.  numpy raises IndexError when the shapes
    differ. *)
Definition setitem_mask (a : ndarray Q) (mask : ndarray bool) (v : Q) : option (ndarray Q) :=
  if decide (shape a = shape mask)
  then Some (mk_ndarray (dtype_of a) (shape a)
               (zip_with (λ x (b : bool), if b then astype (dtype_of a) v else x)
                  (flat a) (flat mask)))
  else None.

(** Statistics of a list of temperatures. *)
Definition np_mean (l : list Q) : Q := (foldr Qplus 0 l / inject_Z (Z.of_nat (length l)))%Q.
Definition np_min (l : list Q) : Q :=
  match l with [] => 0%Q | x :: l' => foldl Qmin x l' end.
Definition np_max (l : list Q) : Q :=
  match l with [] => 0%Q | x :: l' => foldl Qmax x l' end.

(** ** Points, polygons and the pixel grid *)

Definition point : Type := Z * Z.     (* [x, y] *)

(** [np.mgrid[0:rows, 0:cols]] raveled and stacked as (x, y) pairs:
    one coordinate pair per pixel, in row-major order. *)
Definition mgrid_coords (sh : nat * nat) : list point :=
  flat_map (λ r, map (λ c, (Z.of_nat c, Z.of_nat r)) (seq 0 (snd sh))) (seq 0 (fst sh)).

(** A crossing-number (even-odd) containment test on integer coordinates.
    It stands in for the toolkit's test in the worked examples only; on the
    pixels of a polygon's boundary its answer need not be the toolkit's.  No
    theorem about the handlers depends on it: they are stated for an
    arbitrary test. *)
Definition crosses (p a b : point) : bool :=
  let '(px, py) := p in
  let '(ax, ay) := a in
  let '(bx, by_) := b in
  if Bool.eqb (py <? ay)%Z (py <? by_)%Z then false
  else
    let dy := (by_ - ay)%Z in
    let lhs := ((px - ax) * dy)%Z in
    let rhs := ((py - ay) * (bx - ax))%Z in
    if (0 <? dy)%Z then (lhs <? rhs)%Z else (rhs <? lhs)%Z.

Definition edges (pts : list point) : list (point * point) :=
  match pts with
  | [] => []
  | p0 :: rest => zip pts (rest ++ [p0])
  end.

Definition even_odd_contains (pts : list point) (p : point) : bool :=
  Nat.odd (length (filter (λ e, crosses p e.1 e.2 = true) (edges pts))).

(** ** The fill-value dialog

    [simpledialog.askfloat(title, prompt, minvalue=..., maxvalue=...)]: the
    dialog stays open until the user cancels or confirms an entry that reads
    as a number and is neither below [minvalue] nor above [maxvalue]. *)

Inductive user_action : Type :=
  | Press_ok (entry : option Q)     (* [None]: the text is not a number *)
  | Press_cancel.

Definition Qltb (x y : Q) : bool :=
  match (x ?= y)%Q with Lt => true | _ => false end.

Fixpoint askfloat (minvalue maxvalue : Q) (acts : list user_action) : option Q :=
  match acts with
  | [] => None
  | Press_cancel :: _ => None
  | Press_ok None :: rest => askfloat minvalue maxvalue rest
  | Press_ok (Some result) :: rest =>
      if Qltb result minvalue then askfloat minvalue maxvalue rest
      else if Qltb maxvalue result then askfloat minvalue maxvalue rest
      else Some result
  end.

(** ** Editor state *)

Definition ref : Type := nat.

Record editor : Type := mk_editor {
  store : list (ndarray Q);             (* every array allocated so far *)
  data : option ref;                    (* self.data *)
  original_data : option ref;           (* self.original_data *)
  points : list point;                  (* self.points *)
  drawing : bool;                       (* self.drawing *)
  polygon : option (list point);        (* self.polygon: the patch, if any *)
  current_selection : option (list point)   (* self.current_selection *)
}.

(** [ThermalImageEditor()] *)
Definition init : editor :=
  mk_editor [] None None [] false None None.

Definition set_store (f : list (ndarray Q) → list (ndarray Q)) (st : editor) : editor :=
  mk_editor (f (store st)) (data st) (original_data st) (points st) (drawing st)
            (polygon st) (current_selection st).
Definition set_data (d : option ref) (st : editor) : editor :=
  mk_editor (store st) d (original_data st) (points st) (drawing st)
            (polygon st) (current_selection st).
Definition set_original_data (o : option ref) (st : editor) : editor :=
  mk_editor (store st) (data st) o (points st) (drawing st)
            (polygon st) (current_selection st).
Definition set_points (ps : list point) (st : editor) : editor :=
  mk_editor (store st) (data st) (original_data st) ps (drawing st)
            (polygon st) (current_selection st).
Definition set_polygon (pg : option (list point)) (st : editor) : editor :=
  mk_editor (store st) (data st) (original_data st) (points st) (drawing st)
            pg (current_selection st).
Definition set_current_selection (cs : option (list point)) (st : editor) : editor :=
  mk_editor (store st) (data st) (original_data st) (points st) (drawing st)
            (polygon st) cs.

(** Allocation of a fresh array; [a.copy()] is allocation of the same cells. *)
Definition alloc (a : ndarray Q) (st : editor) : ref * editor :=
  (length (store st), set_store (λ h, h ++ [a]) st).

(** The array a reference points to. *)
Definition deref (st : editor) (r : ref) : ndarray Q := store st !!! r.

(** The working matrix and the snapshot, read through their references. *)
Definition current_matrix (st : editor) : option (ndarray Q) := deref st <$> data st.
Definition original_matrix (st : editor) : option (ndarray Q) := deref st <$> original_data st.

(** ** What the user sees: printed lines and message boxes *)

Inductive message : Type :=
  | Print_loaded (sh : nat * nat)
  | Print_temperature_range (lo hi : Q)
  | Print_point_added (x y : Z)
  | Print_region_closed (n : nat)
  | Print_press_fill_button
  | Print_selection_cancelled
  | Print_fill_cancelled
  | Print_filled (v : Q)
  | Print_modified (n : nat)
  | Print_previous_average (avg : Q)
  | Print_image_reset
  | Print_saved (path : string)
  | Info_file_saved (path : string)
  | Warn_need_three_points          (* "Need at least 3 points to create a region" *)
  | Warn_select_region_first        (* "Please select a region first" *)
  | Warn_region_empty               (* "Selected region is empty" *)
  | Error_failed_to_load
  | Error_failed_to_fill
  | Error_failed_to_save
  | Wrote_csv (path : string) (a : option (ndarray Q))   (* to_csv(path, header=False, index=False) *)
  | Uncaught_AttributeError.

(** The messages that report a failure to the user. *)
Definition is_signal (m : message) : bool :=
  match m with
  | Warn_need_three_points | Warn_select_region_first | Warn_region_empty
  | Error_failed_to_load | Error_failed_to_fill | Error_failed_to_save
  | Uncaught_AttributeError => true
  | _ => false
  end.

(** ** Events delivered to the editor *)

Record mouse_event : Type := mk_mouse_event {
  inaxes : bool;       (* [event.inaxes == self.ax] *)
  button : nat;        (* 1 is the left button *)
  xdata : Q;
  ydata : Q
}.

(** What the file dialog and the table reader hand to [load_csv]. *)
Inductive read_result : Type :=
  | No_path                         (* the dialog was dismissed *)
  | Read_error                      (* [pd.read_csv] raised *)
  | Read_ok (a : ndarray Q).        (* [pd.read_csv(path, header=None).values],
                                       a numeric table *)

Inductive event : Type :=
  | Button_press (e : mouse_event)
  | Key_press (key : string)
  | Click_reset
  | Click_fill (dialog : list user_action)
  | Click_save (path : string) (write_ok : bool)
  | Click_load (r : read_result)
  | Click_undo.

Definition is_load (ev : event) : bool :=
  match ev with Click_load _ => true | _ => false end.

(** ** The handlers *)

Section Handlers.

(** [Path(points).contains_points(coords)], one pixel at a time. *)
Variable contains_point : list point → point → bool.

(** [load_csv]: the third component is the returned flag.  [Read_ok a] is a
    table of numbers.  (On a table with a cell that is not a number, a header
    line say, the two arrays are replaced and the range cannot be printed;
    such tables are not represented.) *)
Definition load_csv (r : read_result) (st : editor) : editor * list message * bool :=
  match r with
  | No_path => (st, [], false)
  | Read_error => (st, [Error_failed_to_load], false)
  | Read_ok a =>
      let '(rd, st1) := alloc a st in
      let st2 := set_data (Some rd) st1 in
      let '(ro, st3) := alloc (deref st2 rd) st2 in
      let st4 := set_original_data (Some ro) st3 in
      match flat a with
      | [] => (* [self.data.min()] raises on an empty array *)
          (st4, [Print_loaded (shape a); Error_failed_to_load], false)
      | _ :: _ =>
          (st4, [Print_loaded (shape a);
                 Print_temperature_range (np_min (flat a)) (np_max (flat a))], true)
      end
  end.

(** [on_click] *)
Definition on_click (e : mouse_event) (st : editor) : editor * list message :=
  if negb (inaxes e) then (st, [])
  else if button e =? 1 then
    let x := int (xdata e) in
    let y := int (ydata e) in
    match data st with
    | None =>
        (* [0 <= x < self.data.shape[1]]: the shape is read only when 0 <= x *)
        if (0 <=? x)%Z then (st, [Uncaught_AttributeError]) else (st, [])
    | Some rd =>
        let a := deref st rd in
        if ((0 <=? x)%Z && (x <? Z.of_nat (ncols a))%Z
            && (0 <=? y)%Z && (y <? Z.of_nat (nrows a))%Z)%bool
        then (set_points (points st ++ [(x, y)]) st, [Print_point_added x y])
        else (st, [])
    end
  else (st, []).

(** [close_region] *)
Definition close_region (st : editor) : editor * list message :=
  if length (points st) <? 3 then (st, [Warn_need_three_points])
  else
    let st1 := set_polygon (Some (points st)) st in
    let st2 := set_current_selection (Some (points st)) st1 in
    (st2, [Print_region_closed (length (points st)); Print_press_fill_button]).

(** [refresh_display] shows [self.data] through [self.im]: it raises
    AttributeError on an editor without working array ([false]) and returns
    on one that holds an array ([true]).  The colour limits it sets are the
    minimum and maximum of the array, which an array with a cell has. *)
Definition refresh_display (st : editor) : bool :=
  match data st with Some _ => true | None => false end.

(** [cancel_selection]: the fields are cleared first; the display is
    refreshed before the message is printed. *)
Definition cancel_selection (st : editor) : editor * list message :=
  let st1 := set_points [] st in
  let st2 := set_polygon None st1 in
  let st3 := set_current_selection None st2 in
  if refresh_display st3 then (st3, [Print_selection_cancelled])
  else (st3, [Uncaught_AttributeError]).

(** [on_key_press] *)
Definition on_key_press (key : string) (st : editor) : editor * list message :=
  if (String.eqb key "enter" && (3 <=? length (points st)))%bool then close_region st
  else if String.eqb key "escape" then cancel_selection st
  else (st, []).

(** [create_polygon_mask], for an array of shape [sh]. *)
Definition create_polygon_mask (pts : list point) (sh : nat * nat) : ndarray bool :=
  mk_ndarray bool_ sh (map (contains_point pts) (mgrid_coords sh)).

(** [fill_region]; [dialog] is what the user does in the value prompt. *)
Definition fill_region (dialog : list user_action) (st : editor) : editor * list message :=
  match current_selection st with
  | None | Some [] => (st, [Warn_select_region_first])
  | Some sel =>
      match data st with
      | None => (st, [Error_failed_to_fill])      (* [self.data.shape] on None, caught *)
      | Some rd =>
          let a := deref st rd in
          let mask := create_polygon_mask sel (shape a) in
          if negb (np_any mask) then (st, [Warn_region_empty])
          else
            match getitem_mask a mask with
            | None => (st, [Error_failed_to_fill])
            | Some region_temps =>
                let current_avg := np_mean region_temps in
                match askfloat 0 100 dialog with
                | None => (st, [Print_fill_cancelled])
                | Some fill_value =>
                    match setitem_mask a mask fill_value with
                    | None => (st, [Error_failed_to_fill])
                    | Some a' =>
                        let st1 := set_store (λ h, <[rd := a']> h) st in
                        let '(st2, out) := cancel_selection st1 in
                        (st2, [Print_filled fill_value; Print_modified (np_sum mask);
                               Print_previous_average current_avg] ++ out)
                    end
                end
            end
      end
  end.

(** [reset_image] *)
Definition reset_image (st : editor) : editor * list message :=
  match original_data st with
  | Some ro =>
      let '(rd, st1) := alloc (deref st ro) st in
      let st2 := set_data (Some rd) st1 in
      let '(st3, out) := cancel_selection st2 in
      (st3, out ++ [Print_image_reset])
  | None => (st, [])
  end.

(** [undo_last_action] *)
Definition undo_last_action (st : editor) : editor * list message :=
  reset_image st.

(** [save_csv]; [path] is the dialog's answer, empty when dismissed. *)
Definition save_csv (path : string) (write_ok : bool) (st : editor) : editor * list message :=
  if String.eqb path "" then (st, [])
  else if write_ok
  then (st, [Wrote_csv path (current_matrix st); Print_saved path; Info_file_saved path])
  else (st, [Error_failed_to_save]).

(** [load_new_csv] *)
Definition load_new_csv (r : read_result) (st : editor) : editor * list message :=
  let '(st1, out, ok) := load_csv r st in
  if ok then
    let '(st2, out') := cancel_selection st1 in (st2, out ++ out')
  else (st1, out).

(** The callbacks wired up by [setup_plot]. *)
Definition dispatch (ev : event) (st : editor) : editor * list message :=
  match ev with
  | Button_press e => on_click e st
  | Key_press key => on_key_press key st
  | Click_reset => reset_image st
  | Click_fill dialog => fill_region dialog st
  | Click_save path ok => save_csv path ok st
  | Click_load r => load_new_csv r st
  | Click_undo => undo_last_action st
  end.

(** A session: the events are handled one at a time, in order. *)
Fixpoint run_events (evs : list event) (st : editor) : editor * list message :=
  match evs with
  | [] => (st, [])
  | ev :: evs' =>
      let '(st1, out) := dispatch ev st in
      let '(st2, out') := run_events evs' st1 in
      (st2, out ++ out')
  end.

End Handlers.

(** Left clicks inside the axes, handled in order (the selection being drawn). *)
Definition on_clicks (es : list mouse_event) (st : editor) : editor :=
  foldl (λ s e, (on_click e s).1) st es.

(** The selection part of the state. *)
Definition selection_state (st : editor) : list point * option (list point) * option (list point) :=
  (points st, polygon st, current_selection st).



(** Neither a warning, an error box nor an exception among the messages. *)
Definition silent_of_signals (out : list message) : Prop :=
  existsb is_signal out = false.

(** A containment test that reads its answer off a given mask. *)
Definition contains_of_mask (m : ndarray bool) (_ : list point) (p : point) : bool :=
  flat m !!! (Z.to_nat p.2 * ncols m + Z.to_nat p.1).

(** The working array and the snapshot are different, allocated arrays
    (or neither exists yet). *)
Definition separate (st : editor) : Prop :=
  match data st, original_data st with
  | Some rd, Some ro => rd ≠ ro ∧ rd < length (store st) ∧ ro < length (store st)
  | None, None => True
  | _, _ => False
  end.

(** The closed interval [0.0, 100.0] of the fill-value prompt. *)
Definition in_fill_range (x : Q) : Prop := (0 <= x <= 100)%Q.

(** Every pixel of the working array holds the snapshot's value or a value
    in the fill range; both arrays have one shape. *)
Definition fills_bounded (st : editor) : Prop :=
  ∀ d o, current_matrix st = Some d → original_matrix st = Some o →
    shape d = shape o ∧
    ∀ r c x, pixel d r c = Some x → pixel o r c = Some x ∨ in_fill_range x.

(** [st'] has the arrays of [st]: only selection fields may differ. *)
Definition same_arrays (st st' : editor) : Prop :=
  store st' = store st ∧ data st' = data st ∧ original_data st' = original_data st.

(** The working array and the snapshot have as many cells as their shape says. *)
Definition arrays_well_shaped (st : editor) : Prop :=
  (∀ d, current_matrix st = Some d → well_shaped d) ∧
  (∀ o, original_matrix st = Some o → well_shaped o).

(** The table reader returns rectangular tables. *)
Definition loads_well_shaped (ev : event) : Prop :=
  match ev with
  | Click_load (Read_ok a) => well_shaped a
  | _ => True
  end.

(** ** A worked session: a 5 x 5 image of zeros *)

Definition zeros_5x5 : ndarray Q := mk_ndarray float64 (5, 5) (replicate 25 0%Q).

Definition left_click (x y : Q) : event := Button_press (mk_mouse_event true 1 x y).

(** The editor after [run] has loaded the image. *)
Definition loaded_5x5 : editor := (load_csv (Read_ok zeros_5x5) init).1.1.

(** The square (1,1), (3,1), (3,3), (1,3), clicked and closed with Enter. *)
Definition draw_square : list event :=
  [left_click 1 1; left_click (31 # 10) 1; left_click 3 (7 # 2); left_click 1 3;
   Key_press "enter"].

(** Three points on one line, closed with Enter: a polygon without interior. *)
Definition draw_diagonal : list event :=
  [left_click 1 1; left_click 2 2; left_click 3 3; Key_press "enter"].

Definition square_selected : editor :=
  (run_events even_odd_contains draw_square loaded_5x5).1.

Definition diagonal_selected : editor :=
  (run_events even_odd_contains draw_diagonal loaded_5x5).1.

(** The square filled with 99, drawn again and filled with 50. *)
Definition fill_twice : list event :=
  draw_square ++ [Click_fill [Press_ok (Some 99%Q)]]
  ++ draw_square ++ [Click_fill [Press_ok (Some 50%Q)]].

(** ** Running the editor *)

Section Run.

Variable contains_point : list point → point → bool.

(** [run]: load the file; if that succeeds, set up the plot and serve the
    events of its callbacks until the window is closed. *)
Definition run (r : read_result) (evs : list event) (st : editor) : editor * list message :=
  let '(st1, out, ok) := load_csv r st in
  if ok then
    let '(st2, out') := run_events contains_point evs st1 in (st2, out ++ out')
  else (st1, out).

End Run.

(** The image of zeros read from a file whose cells are written as integers
    ([0], not [0.0]), and the session that draws the square on it. *)
Definition int_zeros_5x5 : ndarray Q := mk_ndarray int64 (5, 5) (replicate 25 0%Q).

Definition int_square_selected : editor :=
  (run even_odd_contains (Read_ok int_zeros_5x5) draw_square init).1.

(** The point is a pixel of an image of shape [sh]. *)
Definition in_image (sh : nat * nat) (p : point) : Prop :=
  (0 ≤ p.1 < Z.of_nat sh.2 ∧ 0 ≤ p.2 < Z.of_nat sh.1)%Z.

(** The table reader never returns a table without cells. *)
Definition nonempty_load (ev : event) : Prop :=
  match ev with
  | Click_load (Read_ok a) => flat a ≠ []
  | _ => True
  end.

(** * The batch pipeline (thermal_processor/core.py)

    [ThermalImageProcessor] keeps one table at a time and replaces it at each
    step; no array is written in place.  A [DataFrame] is the array of its
    values: every step addresses it by position.  The table reader, the
    resampling routine and the writer are parameters. *)

Module Processor.

(** Where [save] writes. *)
Inductive out_path : Type :=
  | Given (p : string)                      (* the [output_file] argument *)
  | With_name (src suffix : string)         (* beside [src], named stem_suffix.csv *)
  | In_dir (dir src suffix : string).       (* in [dir], named stem_suffix.csv *)

Inductive entry : Type :=
  | Loaded (path : string)
  | Cropped (from to : nat * nat)
  | Downsampled (from to : nat * nat) (method : string)
  | Visualized_data
  | Saved (p : out_path).

Inductive message : Type :=
  | Print_loaded_shape (sh : nat * nat)
  | Print_error_loading (path : string)
  | Print_no_data                            (* "No data loaded. Please load data first." *)
  | Print_cropped_shape (sh : nat * nat)
  | Print_downsampled_shape (sh : nat * nat)
  | Print_error_downsampling
  | Show_figure (a : ndarray Q)
  | Print_error_visualizing
  | To_csv (p : out_path) (a : ndarray Q)    (* to_csv(p, header=False, index=False) *)
  | Print_saved (p : out_path)
  | Print_error_saving
  | Mkdir (dir : string)
  | Print_total (n : nat).

Record processor : Type := mk_processor {
  data : option (ndarray Q);
  file_path : option string;
  processing_history : list entry
}.

(** [ThermalImageProcessor()] *)
Definition init : processor := mk_processor None None [].

(** A bound of a Python slice over [n] positions (step 1): a negative index
    counts from the end, and what falls outside is clipped. *)
Definition clamp_index (n : nat) (i : Z) : nat :=
  let i' := if (i <? 0)%Z then (i + Z.of_nat n)%Z else i in
  if (i' <? 0)%Z then 0
  else if (Z.of_nat n <=? i')%Z then n
  else Z.to_nat i'.

(** First position and number of positions of [start:stop]; [None] is an
    omitted bound. *)
Definition slice_range (n : nat) (start stop : option Z) : nat * nat :=
  let s := from_option (clamp_index n) 0 start in
  let e := from_option (clamp_index n) n stop in
  (s, e - s).

#[global] Instance Q_inhabited : Inhabited Q := populate 0%Q.

(** [df.iloc[r0:r1, c0:c1]] *)
Definition iloc (a : ndarray Q) (r0 r1 c0 c1 : option Z) : ndarray Q :=
  let '(rs, rn) := slice_range (nrows a) r0 r1 in
  let '(cs, cn) := slice_range (ncols a) c0 c1 in
  mk_ndarray (dtype_of a) (rn, cn)
    (flat_map (λ r, map (λ c, flat a !!! (r * ncols a + c)) (seq cs cn)) (seq rs rn)).

(** [str.lower], on ASCII letters. *)
Definition lower_ascii (c : Ascii.ascii) : Ascii.ascii :=
  let n := Ascii.nat_of_ascii c in
  if (65 <=? n) && (n <=? 90) then Ascii.ascii_of_nat (n + 32) else c.

Fixpoint lower (s : string) : string :=
  match s with
  | EmptyString => EmptyString
  | String c s' => String (lower_ascii c) (lower s')
  end.

(** [order_map.get(method.lower(), 0)] *)
Definition order_of (method : string) : nat :=
  let m := lower method in
  if String.eqb m "nearest" then 0
  else if String.eqb m "linear" then 1
  else if String.eqb m "cubic" then 3
  else 0.

(** The keyword arguments of [crop] and of [downsample], as [batch_process]
    receives them: a dict, some keys of which may be missing. *)
Record crop_params : Type := mk_crop_params {
  start_row : option Z;
  end_row : option Z;
  start_col : option Z;
  end_col : option Z
}.

Record downsample_params : Type := mk_downsample_params {
  output_size : option (nat * nat);
  method : option string
}.

Definition has_key {A} (o : option A) : bool :=
  match o with Some _ => true | None => false end.

(** Truth value of the dict: it has a key. *)
Definition crop_params_given (cp : crop_params) : bool :=
  has_key (start_row cp) || has_key (end_row cp)
  || has_key (start_col cp) || has_key (end_col cp).

Definition downsample_params_given (dp : downsample_params) : bool :=
  has_key (output_size dp) || has_key (method dp).

Section Methods.

(** [pd.read_csv(path, header=None, skiprows=n)]; [None] when it raises. *)
Variable read_csv : string → nat → option (ndarray Q).

(** [skimage.transform.resize(values, output_size, order=, anti_aliasing=,
    preserve_range=True)]; [None] when it (or its import) raises. *)
Variable resize : ndarray Q → nat * nat → nat → bool → option (ndarray Q).

(** Whether [to_csv] manages to write to the path. *)
Variable to_csv_ok : out_path → bool.

(** [load_csv] *)
Definition load_csv (path : string) (skiprows : nat) (drop_first_column : bool)
    (st : processor) : processor * list message :=
  let st1 := mk_processor (data st) (Some path) (processing_history st) in
  match read_csv path skiprows with
  | None => (st1, [Print_error_loading path])
  | Some t =>
      let d := if drop_first_column then iloc t None None (Some 1%Z) None else t in
      (mk_processor (Some d) (Some path) (processing_history st ++ [Loaded path]),
       [Print_loaded_shape (shape d)])
  end.

(** [crop]; the start bounds default to 0, the end bounds to [None]. *)
Definition crop (start_row : Z) (end_row : option Z) (start_col : Z) (end_col : option Z)
    (st : processor) : processor * list message :=
  match data st with
  | None => (st, [Print_no_data])
  | Some a =>
      let end_row := from_option id (Z.of_nat (nrows a)) end_row in
      let end_col := from_option id (Z.of_nat (ncols a)) end_col in
      let d := iloc a (Some start_row) (Some end_row) (Some start_col) (Some end_col) in
      (mk_processor (Some d) (file_path st)
         (processing_history st ++ [Cropped (shape a) (shape d)]),
       [Print_cropped_shape (shape d)])
  end.

(** [downsample]; the defaults are [(100, 100)] and ['nearest']. *)
Definition downsample (output_size : nat * nat) (method : string)
    (st : processor) : processor * list message :=
  match data st with
  | None => (st, [Print_no_data])
  | Some a =>
      let order := order_of method in
      match resize a output_size order (0 <? order) with
      | None => (st, [Print_error_downsampling])
      | Some d =>
          (mk_processor (Some d) (file_path st)
             (processing_history st ++ [Downsampled (shape a) (shape d) method]),
           [Print_downsampled_shape (shape d)])
      end
  end.

(** [visualize]; [shown] tells whether the plotting call returned. *)
Definition visualize (shown : bool) (st : processor) : processor * list message :=
  match data st with
  | None => (st, [Print_no_data])
  | Some a =>
      if shown
      then (mk_processor (data st) (file_path st) (processing_history st ++ [Visualized_data]),
            [Show_figure a])
      else (st, [Print_error_visualizing])
  end.

(** [save]; [now] is the time stamp [time.strftime] would give.  The third
    component is the returned path, if any. *)
Definition save (now : string) (output_file : option out_path) (suffix : option string)
    (st : processor) : processor * list message * option out_path :=
  match data st with
  | None => (st, [Print_no_data], None)
  | Some a =>
      let target :=
        match output_file with
        | Some p => Some p
        | None =>
            match file_path st with
            | None => None                    (* [self.file_path.stem] on None *)
            | Some src =>
                match suffix with
                | None | Some EmptyString => Some (With_name src ("processed_" +:+ now))
                | Some sfx => Some (With_name src sfx)
                end
            end
        end in
      match target with
      | None => (st, [Print_error_saving], None)
      | Some p =>
          if to_csv_ok p
          then (mk_processor (data st) (file_path st) (processing_history st ++ [Saved p]),
                [To_csv p a; Print_saved p], Some p)
          else (st, [Print_error_saving], None)
      end
  end.

(** [get_processing_history] *)
Definition get_processing_history (st : processor) : list entry := processing_history st.

(** The suffix [batch_process] gives to its output names. *)
Definition batch_suffix (file_suffix : option string) (dp : downsample_params) : string :=
  let base :=
    match file_suffix with
    | None | Some EmptyString => "processed"
    | Some sfx => sfx
    end in
  match output_size dp with
  | Some (h, w) => base +:+ "_" +:+ pretty h +:+ "x" +:+ pretty w
  | None => base
  end.

(** One turn of the loop of [batch_process]: the processor, what it printed,
    and the path appended to [processed_files], if any. *)
Definition process_file (now dest : string) (cp : crop_params) (dp : downsample_params)
    (skiprows : nat) (drop_first_column : bool) (file_suffix : option string)
    (path : string) (st : processor) : processor * list message * option out_path :=
  let output_file := In_dir dest path (batch_suffix file_suffix dp) in
  let '(st1, out1) := load_csv path skiprows drop_first_column st in
  let '(st2, out2) :=
    if crop_params_given cp
    then crop (default 0%Z (start_row cp)) (end_row cp) (default 0%Z (start_col cp)) (end_col cp) st1
    else (st1, []) in
  let '(st3, out3) :=
    if downsample_params_given dp
    then downsample (default (100, 100) (output_size dp)) (default "nearest" (method dp)) st2
    else (st2, []) in
  let '(st4, out4, saved) := save now (Some output_file) None st3 in
  (st4, out1 ++ out2 ++ out3 ++ out4, saved).

Fixpoint process_files (now dest : string) (cp : crop_params) (dp : downsample_params)
    (skiprows : nat) (drop_first_column : bool) (file_suffix : option string)
    (paths : list string) (st : processor) : processor * list message * list out_path :=
  match paths with
  | [] => (st, [], [])
  | path :: paths' =>
      let '(st1, out1, saved) :=
        process_file now dest cp dp skiprows drop_first_column file_suffix path st in
      let '(st2, out2, rest) :=
        process_files now dest cp dp skiprows drop_first_column file_suffix paths' st1 in
      (st2, out1 ++ out2, option_list saved ++ rest)
  end.

(** [batch_process], given the files the pattern matched in the source
    directory; the third component is the returned list. *)
Definition batch_process (now dest : string) (csv_files : list string)
    (cp : crop_params) (dp : downsample_params)
    (skiprows : nat) (drop_first_column : bool) (file_suffix : option string)
    (st : processor) : processor * list message * list out_path :=
  let '(st1, out, processed_files) :=
    process_files now dest cp dp skiprows drop_first_column file_suffix csv_files st in
  (st1, Mkdir dest :: out ++ [Print_total (length processed_files)], processed_files).

End Methods.

(** A call of one of the chaining methods. *)
Inductive call : Type :=
  | Call_load_csv (path : string) (skiprows : nat) (drop_first_column : bool)
  | Call_crop (start_row : Z) (end_row : option Z) (start_col : Z) (end_col : option Z)
  | Call_downsample (output_size : nat * nat) (method : string)
  | Call_visualize (shown : bool)
  | Call_save (now : string) (output_file : option out_path) (suffix : option string).

Definition is_load_call (c : call) : bool :=
  match c with Call_load_csv _ _ _ => true | _ => false end.

Section Chains.

Variable read_csv : string → nat → option (ndarray Q).
Variable resize : ndarray Q → nat * nat → nat → bool → option (ndarray Q).
Variable to_csv_ok : out_path → bool.

Definition perform (c : call) (st : processor) : processor * list message :=
  match c with
  | Call_load_csv path skiprows drop => load_csv read_csv path skiprows drop st
  | Call_crop r0 r1 c0 c1 => crop r0 r1 c0 c1 st
  | Call_downsample size method => downsample resize size method st
  | Call_visualize shown => visualize shown st
  | Call_save now output_file suffix => (save to_csv_ok now output_file suffix st).1
  end.

(** [p.load_csv(..).crop(..).downsample(..)...]: the calls, left to right. *)
Definition chain (cs : list call) (st : processor) : processor :=
  foldl (λ s c, (perform c s).1) st cs.

End Chains.

End Processor.

(** * The matrix-to-row converter (experimental_images_to_FEA_rowData_convertor.py)

    Each function reads matrices from files, flattens each into one row and
    writes the rows as one table.  The list of files ([glob.glob]), the table
    reader, [os.path.basename] and [os.path.exists] are parameters. *)

Module Converter.

(** A cell of the table handed to the writer. *)
Inductive cell : Type :=
  | Number (x : Q)
  | Text (s : string)
  | Missing.                      (* NaN: the row was shorter than the widest one *)

Record frame : Type := mk_frame {
  frame_shape : nat * nat;
  frame_rows : list (list cell)
}.

(** [pd.DataFrame(all_rows)]: one row per element, as wide as the longest,
    the shorter ones filled up with missing values. *)
Definition pad (width : nat) (row : list cell) : list cell :=
  row ++ replicate (width - length row) Missing.

Definition DataFrame (all_rows : list (list cell)) : frame :=
  let width := max_list (map length all_rows) in
  mk_frame (length all_rows, width) (map (pad width) all_rows).

Inductive message : Type :=
  | Print_no_csv_files (folder : string)
  | Print_found (n : nat)
  | Print_processing (i n : nat) (name : string)
  | Print_error_processing (path : string)
  | Print_file_not_found (path : string)
  | To_csv (output_file : string) (df : frame)     (* to_csv(.., index=False, header=False) *)
  | Print_created (output_file : string)
  | Print_created_with_filenames (output_file : string)
  | Print_output_shape (sh : nat * nat)
  | Print_files_by_values (files values : nat)
  | Print_summary_header
  | Print_summary_line (name : string) (original_shape : nat * nat) (flattened_length : nat)
  | Print_none_processed.

(** An entry of [file_info]. *)
Record file_info : Type := mk_file_info {
  filename : string;
  original_shape : nat * nat;
  flattened_length : nat
}.

Section Functions.

(** [pd.read_csv(path, header=None)]; [None] when it raises. *)
Variable read_csv : string → option (ndarray Q).
Variable basename : string → string.
Variable exists_ : string → bool.

(** [df.values.flatten()] *)
Definition flatten (a : ndarray Q) : list cell := map Number (flat a).

(** The loop of [convert_multiple_matrices_to_single_file] from file number
    [i] (counted from 0) of [n] on: the rows and the file information it
    appends, and what it prints. *)
Fixpoint gather (n i : nat) (files : list string)
    : list (list cell) * list file_info * list message :=
  match files with
  | [] => ([], [], [])
  | f :: files' =>
      let '(rows, infos, out) := gather n (S i) files' in
      match read_csv f with
      | Some a =>
          (flatten a :: rows,
           mk_file_info (basename f) (shape a) (length (flatten a)) :: infos,
           Print_processing (i + 1) n (basename f) :: out)
      | None =>
          (rows, infos,
           Print_processing (i + 1) n (basename f) :: Print_error_processing f :: out)
      end
  end.

(** [convert_multiple_matrices_to_single_file], given the files the pattern
    matched in the folder. *)
Definition convert_multiple_matrices_to_single_file
    (folder_path output_file : string) (csv_files : list string) : list message :=
  match csv_files with
  | [] => [Print_no_csv_files folder_path]
  | _ :: _ =>
      let '(all_rows, infos, out) := gather (length csv_files) 0 csv_files in
      Print_found (length csv_files) :: out ++
      match all_rows with
      | [] => [Print_none_processed]
      | _ :: _ =>
          let result_df := DataFrame all_rows in
          [To_csv output_file result_df; Print_created output_file;
           Print_output_shape (frame_shape result_df);
           Print_files_by_values (frame_shape result_df).1 (frame_shape result_df).2;
           Print_summary_header]
          ++ map (λ info, Print_summary_line (filename info) (original_shape info)
                            (flattened_length info)) infos
      end
  end.

(** The loop of [convert_multiple_matrices_with_filenames]. *)
Fixpoint gather_with_filenames (n i : nat) (files : list string)
    : list (list cell) * list message :=
  match files with
  | [] => ([], [])
  | f :: files' =>
      let '(rows, out) := gather_with_filenames n (S i) files' in
      match read_csv f with
      | Some a =>
          ((Text (basename f) :: flatten a) :: rows,
           Print_processing (i + 1) n (basename f) :: out)
      | None =>
          (rows, Print_processing (i + 1) n (basename f) :: Print_error_processing f :: out)
      end
  end.

(** [convert_multiple_matrices_with_filenames] *)
Definition convert_multiple_matrices_with_filenames
    (folder_path output_file : string) (csv_files : list string) : list message :=
  match csv_files with
  | [] => [Print_no_csv_files folder_path]
  | _ :: _ =>
      let '(all_rows, out) := gather_with_filenames (length csv_files) 0 csv_files in
      Print_found (length csv_files) :: out ++
      match all_rows with
      | [] => []
      | _ :: _ =>
          let result_df := DataFrame all_rows in
          [To_csv output_file result_df; Print_created_with_filenames output_file;
           Print_output_shape (frame_shape result_df)]
      end
  end.

(** The loop of [convert_specific_files_to_single_file]. *)
Fixpoint gather_specific (n i : nat) (files : list string)
    : list (list cell) * list message :=
  match files with
  | [] => ([], [])
  | f :: files' =>
      let '(rows, out) := gather_specific n (S i) files' in
      if exists_ f then
        match read_csv f with
        | Some a => (flatten a :: rows, Print_processing (i + 1) n (basename f) :: out)
        | None =>
            (rows, Print_processing (i + 1) n (basename f) :: Print_error_processing f :: out)
        end
      else (rows, Print_file_not_found f :: out)
  end.

(** [convert_specific_files_to_single_file] *)
Definition convert_specific_files_to_single_file
    (file_list : list string) (output_file : string) : list message :=
  let '(all_rows, out) := gather_specific (length file_list) 0 file_list in
  out ++
  match all_rows with
  | [] => []
  | _ :: _ =>
      let result_df := DataFrame all_rows in
      [To_csv output_file result_df; Print_created output_file;
       Print_output_shape (frame_shape result_df)]
  end.

End Functions.

(** The tables a run handed to the writer, in order. *)
Definition written (out : list message) : list (string * frame) :=
  omap (λ m, match m with To_csv f df => Some (f, df) | _ => None end) out.

End Converter.

(** ** Sample files for the worked examples *)

(** A table of 3 rows and 4 columns holding 1 to 12. *)
Definition table_3x4 : ndarray Q :=
  mk_ndarray float64 (3, 4) [1; 2; 3; 4; 5; 6; 7; 8; 9; 10; 11; 12]%Q.

(** A folder in which [a.csv] and [b.csv] hold that table and nothing else
    can be read. *)
Definition sample_read_csv (path : string) : option (ndarray Q) :=
  if String.eqb path "a.csv" || String.eqb path "b.csv" then Some table_3x4 else None.

Definition sample_exists (path : string) : bool :=
  negb (String.eqb path "missing.csv").

(** A resampling that repeats the first cell: it stands in for the
    resampling routine in the worked examples only. *)
Definition sample_resize (a : ndarray Q) (size : nat * nat) (order : nat) (anti_aliasing : bool)
    : option (ndarray Q) :=
  Some (mk_ndarray float64 size (replicate (size.1 * size.2) (flat a !!! 0))).

(** A processor that has loaded [a.csv] as it is. *)
Definition sample_processor : Processor.processor :=
  (Processor.load_csv (λ path _, sample_read_csv path) "a.csv" 0 false Processor.init).1.

(** ** Basic facts about the store *)

Lemma deref_alloc_old a st r :
  r < length (store st) → deref (alloc a st).2 r = deref st r.
Proof.
  intros Hr. unfold deref, alloc; simpl.
  by rewrite lookup_total_app_l.
Qed.

Lemma deref_alloc_new a st : deref (alloc a st).2 (alloc a st).1 = a.
Proof.
  unfold deref, alloc; simpl.
  rewrite lookup_total_app_r by lia.
  by rewrite Nat.sub_diag.
Qed.

(** ** Masks *)

Lemma np_any_false_iff (mask : ndarray bool) : np_any mask = false ↔ np_sum mask = 0.
Proof.
  unfold np_any, np_sum. induction (flat mask) as [|b l IH]; [done|].
  destruct b.
  - rewrite filter_cons_True by done. simpl. split; [done | lia].
  - rewrite filter_cons_False by (simpl; congruence). exact IH.
Qed.

Lemma mgrid_coords_length sh : length (mgrid_coords sh) = fst sh * snd sh.
Proof.
  unfold mgrid_coords. generalize 0 at 2. 
  induction (fst sh) as [|n IH]; intros k; simpl; [done|].
  rewrite length_app, length_map, length_seq, IH. done.
Qed.

Lemma create_polygon_mask_well_shaped contains_point pts sh :
  well_shaped (create_polygon_mask contains_point pts sh).
Proof.
  unfold well_shaped, create_polygon_mask, nrows, ncols; simpl.
  by rewrite length_map, mgrid_coords_length.
Qed.

(** ** Selection handling *)



(** C4. [close_region] on fewer than three points shows the warning
    "Need at least 3 points" and returns the state it was given (store,
    point list and all); on three or more it commits a copy of the point list
    as the current selection and the polygon patch, without a warning.  So it
    succeeds exactly when there are at least three points. *)
Theorem close_region_needs_three_points (st : editor) :
  (length (points st) < 3 →
     close_region st = (st, [Warn_need_three_points])) ∧
  (3 ≤ length (points st) →
     let st' := (close_region st).1 in
     current_selection st' = Some (points st) ∧ polygon st' = Some (points st) ∧
     points st' = points st ∧ store st' = store st ∧
     data st' = data st ∧ original_data st' = original_data st) ∧
  (silent_of_signals (close_region st).2 ↔ 3 ≤ length (points st)).
Proof.
  unfold close_region, silent_of_signals.
  destruct (Nat.ltb_spec (length (points st)) 3) as [Hlt|Hge]; simpl.
  - split; [done|]. split; [lia|]. split; [done | lia].
  - split; [lia|]. by repeat split.
Qed.

(** The Enter key reaches [close_region] only with three points or more:
    with fewer, the key press changes nothing and shows nothing. *)
Lemma on_key_press_enter_few_points (st : editor) :
  length (points st) < 3 → on_key_press "enter" st = (st, []).
Proof.
  intros Hlt. unfold on_key_press.
  destruct (Nat.leb_spec 3 (length (points st))); [lia | done].
Qed.

(** C7. A left click inside the axes, turned into pixel coordinates (x, y):
    [on_click] appends (x, y) to the point list exactly when 0 <= x < cols and
    0 <= y < rows; otherwise it returns the state unchanged and prints
    nothing.  The store of arrays is the same in both cases. *)
Theorem on_click_appends_in_bounds (st : editor) (e : mouse_event) (rd : ref) :
  data st = Some rd → inaxes e = true → button e = 1 →
  let a := deref st rd in
  let x := int (xdata e) in
  let y := int (ydata e) in
  let in_bounds := (0 ≤ x < Z.of_nat (ncols a) ∧ 0 ≤ y < Z.of_nat (nrows a))%Z in
  (in_bounds →
     on_click e st = (set_points (points st ++ [(x, y)]) st, [Print_point_added x y])) ∧
  (¬ in_bounds → on_click e st = (st, [])) ∧
  (points (on_click e st).1 = points st ++ [(x, y)] ↔ in_bounds) ∧
  store (on_click e st).1 = store st.
Proof.
  intros Hd Hin Hb a x y in_bounds.
  assert (Hdec : in_bounds ∨ ¬ in_bounds) by (unfold in_bounds; lia).
  assert (Hyes : in_bounds →
     on_click e st = (set_points (points st ++ [(x, y)]) st, [Print_point_added x y])).
  { intros [[Hx0 Hx1] [Hy0 Hy1]]. unfold on_click. rewrite Hin, Hb, Hd. simpl.
    fold a x y.
    apply Z.leb_le in Hx0, Hy0. apply Z.ltb_lt in Hx1, Hy1.
    by rewrite Hx0, Hx1, Hy0, Hy1. }
  assert (Hno : ¬ in_bounds → on_click e st = (st, [])).
  { intros Hout. unfold on_click. rewrite Hin, Hb, Hd. simpl. fold a x y.
    destruct (Z.leb_spec 0 x), (Z.ltb_spec x (Z.of_nat (ncols a))),
      (Z.leb_spec 0 y), (Z.ltb_spec y (Z.of_nat (nrows a))); simpl; try done.
    exfalso. apply Hout. unfold in_bounds. lia. }
  split; [done|]. split; [done|]. split.
  - split; [|by intros H; rewrite (Hyes H)].
    destruct Hdec as [H|H]; [done|]. rewrite (Hno H). simpl. intros Heq.
    apply (f_equal length) in Heq. rewrite length_app in Heq. simpl in Heq. lia.
  - destruct Hdec as [H|H]; [by rewrite (Hyes H) | by rewrite (Hno H)].
Qed.

(** The state [cancel_selection] leaves, whether or not the display could
    be refreshed. *)
Lemma cancel_selection_state (st : editor) :
  (cancel_selection st).1
    = set_current_selection None (set_polygon None (set_points [] st)).
Proof. unfold cancel_selection. by destruct (refresh_display _). Qed.

Lemma cancel_selection_with_array (st : editor) :
  is_Some (data st) →
  cancel_selection st
    = (set_current_selection None (set_polygon None (set_points [] st)),
       [Print_selection_cancelled]).
Proof. intros [rd Hd]. unfold cancel_selection, refresh_display. simpl. by rewrite Hd. Qed.


(** ** The pixel grid *)

Lemma mgrid_coords_lookup_from (C : nat) (R r c k : nat) :
  r < R → c < C →
  flat_map (λ r, map (λ c, (Z.of_nat c, Z.of_nat r)) (seq 0 C)) (seq k R) !! (r * C + c)
    = Some (Z.of_nat c, Z.of_nat (k + r)).
Proof.
  revert r k. induction R as [|R IH]; intros r k Hr Hc; [lia|].
  simpl. destruct r as [|r].
  - rewrite lookup_app_l by (rewrite length_map, length_seq; simpl; lia).
    simpl. rewrite list_lookup_fmap, lookup_seq_lt by done. simpl.
    by rewrite Nat.add_0_r.
  - rewrite lookup_app_r by (rewrite length_map, length_seq; simpl; lia).
    rewrite length_map, length_seq.
    replace (S r * C + c - C) with (r * C + c) by (simpl; lia).
    rewrite IH by lia. do 3 f_equal. lia.
Qed.

Lemma mgrid_coords_lookup (sh : nat * nat) (r c : nat) :
  r < fst sh → c < snd sh →
  mgrid_coords sh !! (r * snd sh + c) = Some (Z.of_nat c, Z.of_nat r).
Proof.
  intros Hr Hc. unfold mgrid_coords.
  exact (mgrid_coords_lookup_from (snd sh) (fst sh) r c 0 Hr Hc).
Qed.

Lemma pixel_in_bounds {A} (a : ndarray A) (r c : nat) (x : A) :
  pixel a r c = Some x →
  r < nrows a ∧ c < ncols a ∧ flat a !! (r * ncols a + c) = Some x.
Proof.
  unfold pixel.
  destruct (Nat.ltb_spec r (nrows a)), (Nat.ltb_spec c (ncols a)); simpl; try done.
Qed.

Lemma pixel_lookup {A} (a : ndarray A) (r c : nat) :
  r < nrows a → c < ncols a → pixel a r c = flat a !! (r * ncols a + c).
Proof.
  intros Hr Hc. unfold pixel.
  by destruct (Nat.ltb_spec r (nrows a)), (Nat.ltb_spec c (ncols a)); simpl; try lia.
Qed.

Lemma pixel_is_Some {A} (a : ndarray A) (r c : nat) :
  well_shaped a → r < nrows a → c < ncols a → is_Some (pixel a r c).
Proof.
  intros Hw Hr Hc. rewrite pixel_lookup by done.
  apply lookup_lt_is_Some. rewrite Hw. nia.
Qed.

(** The mask bit of pixel (r, c) is the containment test at (x, y) = (c, r). *)
Lemma pixel_create_polygon_mask contains_point pts sh r c :
  r < fst sh → c < snd sh →
  pixel (create_polygon_mask contains_point pts sh) r c
    = Some (contains_point pts (Z.of_nat c, Z.of_nat r)).
Proof.
  intros Hr Hc. rewrite pixel_lookup by done. unfold ncols; simpl.
  by rewrite list_lookup_fmap, mgrid_coords_lookup.
Qed.

(** Every well-shaped mask is the rasterisation of some containment test:
    the results below, stated for an arbitrary test, cover every mask. *)
Lemma create_polygon_mask_any_mask (m : ndarray bool) (pts : list point) :
  well_shaped m → dtype_of m = bool_ →
  create_polygon_mask (contains_of_mask m) pts (shape m) = m.
Proof.
  intros Hw Hdt. destruct m as [dt [R C] l]. unfold well_shaped, nrows, ncols in Hw.
  simpl in Hw, Hdt. subst dt. unfold create_polygon_mask. simpl. f_equal.
  apply list_eq. intros i. rewrite list_lookup_fmap.
  destruct (decide (i < R * C)) as [Hi|Hi].
  - assert (HC : 0 < C) by nia.
    assert (Hr : i / C < R) by (apply Nat.Div0.div_lt_upper_bound; lia).
    assert (Hc : i mod C < C) by (apply Nat.mod_upper_bound; lia).
    assert (Hidx : i = i / C * C + i mod C).
    { rewrite (Nat.div_mod_eq i C) at 1. lia. }
    pose proof (mgrid_coords_lookup (R, C) (i / C) (i mod C) Hr Hc) as Hg.
    change ((R, C).2) with C in Hg. rewrite <- Hidx in Hg.
    unfold point in *. rewrite Hg. simpl.
    unfold contains_of_mask, ncols. simpl. rewrite !Nat2Z.id, <- Hidx.
    symmetry. apply list_lookup_lookup_total_lt. lia.
  - rewrite (lookup_ge_None_2 (mgrid_coords (R, C))) by (rewrite mgrid_coords_length; simpl; lia).
    simpl. symmetry. apply lookup_ge_None_2. lia.
Qed.

(** ** Masked assignment *)

Lemma setitem_mask_pixel (a a' : ndarray Q) (mask : ndarray bool) (v : Q) (r c : nat) (b : bool) :
  well_shaped a → setitem_mask a mask v = Some a' →
  pixel mask r c = Some b →
  pixel a' r c = if b then Some (astype (dtype_of a) v) else pixel a r c.
Proof.
  intros Hw Hset Hm. unfold setitem_mask in Hset.
  destruct (decide (shape a = shape mask)) as [Hsh|]; [|done].
  injection Hset as <-.
  apply pixel_in_bounds in Hm as (Hr & Hc & Hm).
  unfold nrows, ncols in *. rewrite <- Hsh in *.
  assert (Hi : r * (shape a).2 + c < length (flat a)).
  { rewrite Hw. unfold nrows, ncols. nia. }
  apply lookup_lt_is_Some in Hi as [x Hx].
  rewrite !pixel_lookup by done. unfold ncols; simpl.
  rewrite lookup_zip_with, Hx, Hm. simpl. by destruct b.
Qed.

Lemma setitem_mask_well_shaped (a a' : ndarray Q) (mask : ndarray bool) (v : Q) :
  well_shaped a → well_shaped mask → setitem_mask a mask v = Some a' →
  shape a' = shape a ∧ well_shaped a'.
Proof.
  intros Hw Hwm Hset. unfold setitem_mask in Hset.
  destruct (decide (shape a = shape mask)) as [Hsh|]; [|done].
  injection Hset as <-. split; [done|].
  unfold well_shaped, nrows, ncols in *. simpl.
  rewrite length_zip_with, Hw, Hwm, Hsh. lia.
Qed.

Lemma setitem_mask_dtype (a a' : ndarray Q) (mask : ndarray bool) (v : Q) :
  setitem_mask a mask v = Some a' → dtype_of a' = dtype_of a.
Proof.
  unfold setitem_mask. destruct (decide _); [|done]. by intros [= <-].
Qed.

(** A mask with a true entry is not empty. *)
Lemma pixel_true_np_any (mask : ndarray bool) (r c : nat) :
  pixel mask r c = Some true → np_any mask = true.
Proof.
  intros Hm. apply pixel_in_bounds in Hm as (_ & _ & Hm).
  unfold np_any. apply existsb_exists. exists true. split; [|done].
  apply list_elem_of_In. by eapply list_elem_of_lookup_2.
Qed.

(** ** Conversion to the dtype of the array *)

(** Truncation toward zero keeps a value inside an interval with integer
    bounds that contains zero. *)
Lemma int_in_range (v : Q) (hi : Z) :
  (0 <= v)%Q → (v <= inject_Z hi)%Q → (0 <= int v <= hi)%Z.
Proof.
  destruct v as [n d]. unfold Qle, int. simpl. intros H0 Hhi.
  rewrite Z.mul_1_r in H0.
  assert (Hn : (0 <= n)%Z) by lia.
  rewrite Z.quot_div_nonneg by lia. split.
  - apply Z.div_pos; lia.
  - destruct (Z.le_gt_cases 0 hi) as [Hh|Hh]; [|nia].
    apply Z.div_le_upper_bound; lia.
Qed.

Lemma astype_in_range (dt : dtype) (v : Q) :
  (0 <= v <= 100)%Q → (0 <= astype dt v <= 100)%Q.
Proof.
  intros [H0 H100]. destruct dt; simpl.
  - done.
  - destruct (int_in_range v 100 H0 H100) as [Hlo Hhi].
    split; unfold Qle; simpl; lia.
  - by destruct (Qeq_bool v 0).
Qed.

Section Fill.

Variable contains_point : list point → point → bool.

(** What [fill_region] does once a region is selected, the mask is not empty
    and the prompt has returned a value. *)
Lemma fill_region_filled st dialog rd sel v :
  data st = Some rd → current_selection st = Some sel → sel ≠ [] →
  let a := deref st rd in
  let mask := create_polygon_mask contains_point sel (shape a) in
  np_any mask = true →
  askfloat 0 100 dialog = Some v →
  fill_region contains_point dialog st =
    (set_current_selection None (set_polygon None (set_points []
        (set_store (λ h, <[rd := mk_ndarray (dtype_of a) (shape a)
             (zip_with (λ x (b : bool), if b then astype (dtype_of a) v else x)
                (flat a) (flat mask))]> h) st))),
     [Print_filled v; Print_modified (np_sum mask);
      Print_previous_average (np_mean (select_cells (flat a) (flat mask)));
      Print_selection_cancelled]).
Proof.
  intros Hd Hsel Hne a mask Hany Hask. unfold fill_region. rewrite Hsel, Hd.
  destruct sel as [|p sel]; [done|].
  fold a. fold mask. rewrite Hany. simpl.
  unfold getitem_mask, setitem_mask. simpl.
  rewrite decide_True by done. rewrite Hask.
  rewrite decide_True by done.
  rewrite cancel_selection_with_array by (simpl; eauto). done.
Qed.

(** The array that [fill_region] leaves as the working array. *)
Lemma fill_region_current_matrix st dialog rd sel v :
  data st = Some rd → rd < length (store st) →
  current_selection st = Some sel → sel ≠ [] →
  let a := deref st rd in
  let mask := create_polygon_mask contains_point sel (shape a) in
  np_any mask = true →
  askfloat 0 100 dialog = Some v →
  ∃ a', setitem_mask a mask v = Some a' ∧
        current_matrix (fill_region contains_point dialog st).1 = Some a'.
Proof.
  intros Hd Hlt Hsel Hne a mask Hany Hask.
  rewrite (fill_region_filled st dialog rd sel v Hd Hsel Hne Hany Hask).
  fold a mask. eexists. split.
  - unfold setitem_mask. by rewrite decide_True by done.
  - unfold current_matrix. simpl. rewrite Hd. simpl. f_equal.
    unfold deref. simpl. by apply list_lookup_total_insert_eq.
Qed.

(** C1, as the code has it on a table of integers.  The table is read as an
    int64 array, and the assignment [self.data[mask] = fill_value] converts
    the value to the dtype of the array: with a region selected, a true mask
    entry at pixel (r, c) and a value V returned by the prompt,
    [fill_region] leaves V truncated toward zero at that pixel, while the
    line it prints names V itself. *)
Theorem fill_region_truncates_on_integer_array (st : editor) (dialog : list user_action)
    (rd : ref) (sel : list point) (v : Q) (r c : nat) :
  data st = Some rd → rd < length (store st) → well_shaped (deref st rd) →
  dtype_of (deref st rd) = int64 →
  current_selection st = Some sel → sel ≠ [] →
  pixel (create_polygon_mask contains_point sel (shape (deref st rd))) r c = Some true →
  askfloat 0 100 dialog = Some v →
  ∃ a', current_matrix (fill_region contains_point dialog st).1 = Some a' ∧
    pixel a' r c = Some (inject_Z (int v)) ∧
    (¬ (inject_Z (int v) == v)%Q → ∀ x, pixel a' r c = Some x → ¬ (x == v)%Q) ∧
    Print_filled v ∈ (fill_region contains_point dialog st).2.
Proof.
  intros Hd Hlt Hw Hdt Hsel Hne Hm Hask.
  pose proof (pixel_true_np_any _ r c Hm) as Hany.
  destruct (fill_region_current_matrix st dialog rd sel v Hd Hlt Hsel Hne Hany Hask)
    as (a' & Hset & Hcur).
  assert (Hpx : pixel a' r c = Some (inject_Z (int v))).
  { rewrite (setitem_mask_pixel _ a' _ v r c true Hw Hset Hm). by rewrite Hdt. }
  exists a'. split_and!; try done.
  - intros Hneq x Hx. rewrite Hpx in Hx. by injection Hx as <-.
  - rewrite (fill_region_filled st dialog rd sel v Hd Hsel Hne Hany Hask).
    apply list_elem_of_here.
Qed.

(** X25. With a region selected whose mask has at least one true entry, and
    a value V returned by the prompt, [fill_region] leaves in the working
    array V, converted to the dtype of the array, at every pixel where the
    mask is true (V itself when the array holds floats) and the previous
    value at every pixel where it is false (every pixel has a mask bit),
    keeps the shape and the dtype, and reports as modified the number of
    true entries of the mask. *)
Theorem fill_region_writes_converted_value (st : editor) (dialog : list user_action)
    (rd : ref) (sel : list point) (v : Q) :
  data st = Some rd → rd < length (store st) → well_shaped (deref st rd) →
  current_selection st = Some sel → sel ≠ [] →
  let a := deref st rd in
  let mask := create_polygon_mask contains_point sel (shape a) in
  0 < np_sum mask →
  askfloat 0 100 dialog = Some v →
  let st' := (fill_region contains_point dialog st).1 in
  ∃ a', current_matrix st' = Some a' ∧ shape a' = shape a ∧ dtype_of a' = dtype_of a ∧
    (∀ r c, r < nrows a → c < ncols a → is_Some (pixel mask r c)) ∧
    (∀ r c, pixel mask r c = Some true → pixel a' r c = Some (astype (dtype_of a) v)) ∧
    (dtype_of a = float64 → ∀ r c, pixel mask r c = Some true → pixel a' r c = Some v) ∧
    (∀ r c, pixel mask r c = Some false → pixel a' r c = pixel a r c) ∧
    Print_modified (length (filter (λ b, b = true) (flat mask))) ∈ (fill_region contains_point dialog st).2.
Proof.
  intros Hd Hlt Hw Hsel Hne a mask Hsum Hask st'.
  assert (Hany : np_any mask = true).
  { destruct (np_any mask) eqn:E; [done|]. apply np_any_false_iff in E. lia. }
  destruct (fill_region_current_matrix st dialog rd sel v Hd Hlt Hsel Hne Hany Hask)
    as (a' & Hset & Hcur).
  fold a mask in Hset.
  destruct (setitem_mask_well_shaped a a' mask v Hw
              (create_polygon_mask_well_shaped _ _ _) Hset) as [Hsh _].
  exists a'. split_and!; try done.
  - by eapply setitem_mask_dtype.
  - intros r c Hr Hc. apply pixel_is_Some; [apply create_polygon_mask_well_shaped|done..].
  - intros r c Hm. by rewrite (setitem_mask_pixel a a' mask v r c true).
  - intros Hdt r c Hm. rewrite (setitem_mask_pixel a a' mask v r c true) by done.
    by rewrite Hdt.
  - intros r c Hm. by rewrite (setitem_mask_pixel a a' mask v r c false).
  - rewrite (fill_region_filled st dialog rd sel v Hd Hsel Hne Hany Hask).
    apply list_elem_of_In. simpl. auto.
Qed.

(** C5. With a region selected whose mask has no true entry, [fill_region]
    shows the warning "Selected region is empty" and returns the state it was
    given: no array of the store is written, and the selection stays. *)
Theorem fill_region_empty_mask (st : editor) (dialog : list user_action)
    (rd : ref) (sel : list point) :
  data st = Some rd → current_selection st = Some sel → sel ≠ [] →
  np_sum (create_polygon_mask contains_point sel (shape (deref st rd))) = 0 →
  fill_region contains_point dialog st = (st, [Warn_region_empty]).
Proof.
  intros Hd Hsel Hne Hsum. apply np_any_false_iff in Hsum.
  unfold fill_region. rewrite Hsel, Hd.
  destruct sel as [|p sel]; [done|]. by rewrite Hsum.
Qed.

End Fill.



(** C9. [undo_last_action] is [reset_image]: from every editor state the two
    give the same next state (store, working array, snapshot and selection)
    and the same messages. *)
Theorem undo_last_action_is_reset (st : editor) :
  undo_last_action st = reset_image st.
Proof. reflexivity. Qed.

(** ** The fill-value prompt *)

Lemma Qltb_false_le (x y : Q) : Qltb x y = false → (y <= x)%Q.
Proof.
  unfold Qltb. intros H. apply Qnot_lt_le. intros Hlt.
  apply Qlt_alt in Hlt. unfold Qcompare in *. by rewrite Hlt in H.
Qed.

Lemma askfloat_in_range (lo hi : Q) (acts : list user_action) (v : Q) :
  askfloat lo hi acts = Some v → (lo <= v <= hi)%Q.
Proof.
  induction acts as [|[[x|]|] acts IH]; simpl; try done.
  destruct (Qltb x lo) eqn:E1; [done|].
  destruct (Qltb hi x) eqn:E2; [done|].
  intros [= <-]. split; by apply Qltb_false_le.
Qed.

(** ** Handlers that leave the arrays alone *)

Lemma same_arrays_refl st : same_arrays st st.
Proof. done. Qed.

Lemma on_click_same_arrays e st : same_arrays st (on_click e st).1.
Proof. unfold on_click. by repeat case_match. Qed.

Lemma close_region_same_arrays st : same_arrays st (close_region st).1.
Proof. unfold close_region. by case_match. Qed.

Lemma cancel_selection_same_arrays st : same_arrays st (cancel_selection st).1.
Proof. by rewrite cancel_selection_state. Qed.

Lemma on_key_press_same_arrays key st : same_arrays st (on_key_press key st).1.
Proof.
  unfold on_key_press. repeat case_match;
    auto using close_region_same_arrays, cancel_selection_same_arrays, same_arrays_refl.
Qed.

Lemma save_csv_same_arrays path ok st : same_arrays st (save_csv path ok st).1.
Proof. unfold save_csv. by repeat case_match. Qed.

Lemma same_arrays_separate st st' : same_arrays st st' → separate st → separate st'.
Proof. intros (Hs & Hd & Ho). unfold separate. by rewrite Hs, Hd, Ho. Qed.

Lemma same_arrays_matrices st st' :
  same_arrays st st' →
  current_matrix st' = current_matrix st ∧ original_matrix st' = original_matrix st.
Proof.
  intros (Hs & Hd & Ho). unfold current_matrix, original_matrix, deref.
  by rewrite Hs, Hd, Ho.
Qed.

Lemma same_arrays_fills_bounded st st' :
  same_arrays st st' → fills_bounded st → fills_bounded st'.
Proof.
  intros Hsame Hb d o. destruct (same_arrays_matrices _ _ Hsame) as [-> ->]. apply Hb.
Qed.

(** ** Reset *)

Lemma reset_image_copies st ro :
  original_data st = Some ro → ro < length (store st) →
  let st' := (reset_image st).1 in
  data st' = Some (length (store st)) ∧
  original_data st' = Some ro ∧
  store st' = store st ++ [deref st ro] ∧
  current_matrix st' = original_matrix st ∧
  original_matrix st' = original_matrix st.
Proof.
  intros Ho Hlt. unfold reset_image. rewrite Ho. simpl.
  unfold current_matrix, original_matrix. simpl. rewrite Ho. simpl.
  split_and!; try done.
  - f_equal. apply (deref_alloc_new (deref st ro) st).
  - f_equal. by apply (deref_alloc_old (deref st ro) st ro).
Qed.

Lemma reset_image_separate st : separate st → separate (reset_image st).1.
Proof.
  unfold separate. intros Hsep.
  destruct (original_data st) as [ro|] eqn:Ho.
  - destruct (data st) as [rd|]; [|done]. destruct Hsep as (Hne & Hrd & Hro).
    destruct (reset_image_copies st ro Ho Hro) as (-> & -> & -> & _).
    rewrite length_app. simpl. lia.
  - unfold reset_image. rewrite Ho. simpl. rewrite Ho. by destruct (data st).
Qed.

Lemma reset_image_keeps_original st :
  separate st → original_matrix (reset_image st).1 = original_matrix st.
Proof.
  unfold separate. intros Hsep.
  destruct (original_data st) as [ro|] eqn:Ho.
  - destruct (data st) as [rd|]; [|done]. destruct Hsep as (Hne & Hrd & Hro).
    by destruct (reset_image_copies st ro Ho Hro) as (_ & _ & _ & _ & ->).
  - unfold reset_image. by rewrite Ho.
Qed.

Lemma reset_image_fills_bounded st : separate st → fills_bounded (reset_image st).1.
Proof.
  unfold separate. intros Hsep.
  destruct (original_data st) as [ro|] eqn:Ho.
  - destruct (data st) as [rd|]; [|done]. destruct Hsep as (Hne & Hrd & Hro).
    destruct (reset_image_copies st ro Ho Hro) as (_ & _ & _ & Hc & Hor).
    intros d o. rewrite Hc, Hor. intros -> [= ->]. auto.
  - destruct (data st); [done|]. unfold reset_image. rewrite Ho. simpl.
    intros d o. unfold original_matrix. by rewrite Ho.
Qed.

(** ** Load *)

Lemma load_csv_ok_arrays a st :
  let st' := (load_csv (Read_ok a) st).1.1 in
  data st' = Some (length (store st)) ∧
  original_data st' = Some (S (length (store st))) ∧
  store st' = store st ++ [a; a] ∧
  current_matrix st' = Some a ∧ original_matrix st' = Some a ∧
  selection_state st' = selection_state st.
Proof.
  unfold load_csv, alloc, deref. simpl.
  rewrite lookup_total_app_r by lia. rewrite Nat.sub_diag. simpl.
  assert (Hst : (store st ++ [a]) ++ [a] = store st ++ [a; a]) by by rewrite <- app_assoc.
  assert (Hd : (store st ++ [a; a]) !!! length (store st) = a).
  { rewrite lookup_total_app_r by lia. by rewrite Nat.sub_diag. }
  assert (Ho : (store st ++ [a; a]) !!! S (length (store st)) = a).
  { rewrite lookup_total_app_r by lia. by replace (S (length (store st)) - length (store st)) with 1 by lia. }
  destruct (flat a); simpl; unfold current_matrix, original_matrix, deref; simpl;
    rewrite !Hst, !length_app; simpl; rewrite !Nat.add_1_r;
    (split_and!; try done; f_equal; [exact Hd | exact Ho]).
Qed.

Lemma load_csv_ok_separate a st : separate (load_csv (Read_ok a) st).1.1.
Proof.
  destruct (load_csv_ok_arrays a st) as (Hd & Ho & Hs & _).
  unfold separate. rewrite Hd, Ho, Hs, length_app. simpl. lia.
Qed.

Lemma load_csv_separate r st : separate st → separate (load_csv r st).1.1.
Proof.
  intros Hsep. destruct r as [| |a]; try done. apply load_csv_ok_separate.
Qed.

Lemma load_csv_fills_bounded r st : fills_bounded st → fills_bounded (load_csv r st).1.1.
Proof.
  intros Hb. destruct r as [| |a]; try done.
  destruct (load_csv_ok_arrays a st) as (_ & _ & _ & Hc & Hor & _).
  intros d o. rewrite Hc, Hor. intros [= <-] [= <-]. auto.
Qed.

Lemma load_new_csv_state r st :
  same_arrays (load_csv r st).1.1 (load_new_csv r st).1.
Proof.
  unfold load_new_csv. destruct (load_csv r st) as [[st1 out] ok]. simpl.
  destruct ok; simpl; [|done].
  pose proof (cancel_selection_same_arrays st1) as Hsame.
  by destruct (cancel_selection st1).
Qed.

(** Closes a goal [Print_filled v ∈ out → _] when [out] is a literal list
    without that message. *)
Ltac not_filled :=
  let Hin := fresh "Hin" in
  simpl; intros Hin; apply list_elem_of_In in Hin; simpl in Hin;
  repeat (destruct Hin as [Hin|Hin]; [discriminate Hin|]); destruct Hin.

(** ** Sessions *)

Section Sessions.

Variable contains_point : list point → point → bool.

(** [fill_region] either returns the state it was given, without having
    filled anything, or has gone through the whole fill. *)
Lemma fill_region_cases dialog st :
  ((fill_region contains_point dialog st).1 = st ∧
   ∀ v, Print_filled v ∉ (fill_region contains_point dialog st).2) ∨
  (∃ rd sel v,
     data st = Some rd ∧ current_selection st = Some sel ∧ sel ≠ [] ∧
     np_any (create_polygon_mask contains_point sel (shape (deref st rd))) = true ∧
     askfloat 0 100 dialog = Some v).
Proof.
  unfold fill_region.
  destruct (current_selection st) as [[|p sel]|] eqn:Hsel;
    [left; split; [done | by intros v ?%list_elem_of_singleton]| |
     left; split; [done | by intros v ?%list_elem_of_singleton]].
  destruct (data st) as [rd|] eqn:Hd;
    [|left; split; [done | by intros v ?%list_elem_of_singleton]].
  destruct (np_any _) eqn:Hany; simpl;
    [|left; split; [done | by intros v ?%list_elem_of_singleton]].
  destruct (getitem_mask _ _) as [temps|];
    [|left; split; [done | by intros v ?%list_elem_of_singleton]].
  destruct (askfloat 0 100 dialog) as [v|] eqn:Hask;
    [|left; split; [done | by intros v ?%list_elem_of_singleton]].
  right. by exists rd, (p :: sel), v.
Qed.

Lemma fill_region_filled_in_range dialog st v :
  Print_filled v ∈ (fill_region contains_point dialog st).2 → in_fill_range v.
Proof.
  destruct (fill_region_cases dialog st) as [[_ Hno]|(rd & sel & w & Hd & Hsel & Hne & Hany & Hask)].
  - intros Hin. by destruct (Hno v).
  - rewrite (fill_region_filled contains_point st dialog rd sel w) by done. simpl.
    intros Hin. apply list_elem_of_In in Hin. simpl in Hin.
    destruct Hin as [[= <-]|[|[|[|]]]]; try done.
    by apply askfloat_in_range in Hask.
Qed.

Lemma fill_region_separate dialog st :
  separate st → separate (fill_region contains_point dialog st).1.
Proof.
  intros Hsep.
  destruct (fill_region_cases dialog st) as [[-> _]|(rd & sel & w & Hd & Hsel & Hne & Hany & Hask)];
    [done|].
  rewrite (fill_region_filled contains_point st dialog rd sel w) by done.
  unfold separate in *. simpl. by rewrite length_insert.
Qed.

Lemma fill_region_keeps_original dialog st :
  separate st →
  original_matrix (fill_region contains_point dialog st).1 = original_matrix st.
Proof.
  intros Hsep.
  destruct (fill_region_cases dialog st) as [[-> _]|(rd & sel & w & Hd & Hsel & Hne & Hany & Hask)];
    [done|].
  rewrite (fill_region_filled contains_point st dialog rd sel w) by done.
  unfold separate in Hsep. rewrite Hd in Hsep.
  unfold original_matrix. simpl.
  destruct (original_data st) as [ro|]; [|done]. simpl. f_equal.
  destruct Hsep as (Hne' & _). unfold deref. simpl.
  by rewrite list_lookup_total_insert_ne.
Qed.

Lemma fill_region_fills_bounded dialog st :
  separate st → fills_bounded st → fills_bounded (fill_region contains_point dialog st).1.
Proof.
  intros Hsep Hb.
  destruct (fill_region_cases dialog st) as [[-> _]|(rd & sel & w & Hd & Hsel & Hne & Hany & Hask)];
    [done|].
  pose proof (fill_region_keeps_original dialog st Hsep) as Hor.
  rewrite (fill_region_filled contains_point st dialog rd sel w) in * by done.
  intros d o. rewrite Hor. clear Hor.
  unfold separate in Hsep. rewrite Hd in Hsep.
  destruct (original_data st) as [ro|] eqn:Ho; [|done].
  destruct Hsep as (Hne' & Hrd & Hro).
  unfold current_matrix at 1. simpl. rewrite Hd. simpl.
  unfold deref at 1. simpl. rewrite list_lookup_total_insert_eq by done.
  intros [= <-] Hom.
  destruct (Hb (deref st rd) o) as [Hsh Hpix]; [unfold current_matrix; by rewrite Hd | done |].
  split; [done|]. intros r c x Hx.
  apply pixel_in_bounds in Hx as (Hr & Hc & Hx). unfold nrows, ncols in *. simpl in *.
  apply lookup_zip_with_Some in Hx as (y & b & -> & Hy & Hbit).
  destruct b.
  - right. apply astype_in_range. by apply askfloat_in_range in Hask.
  - apply Hpix. by rewrite pixel_lookup.
Qed.

(** Every handler keeps the working array and the snapshot apart. *)
Lemma dispatch_separate ev st :
  separate st → separate (dispatch contains_point ev st).1.
Proof.
  intros Hsep. destruct ev as [e|key| |dialog|path ok|r|]; simpl.
  - by eapply same_arrays_separate; [apply on_click_same_arrays|].
  - by eapply same_arrays_separate; [apply on_key_press_same_arrays|].
  - by apply reset_image_separate.
  - by apply fill_region_separate.
  - by eapply same_arrays_separate; [apply save_csv_same_arrays|].
  - eapply same_arrays_separate; [apply load_new_csv_state|].
    by apply load_csv_separate.
  - by apply reset_image_separate.
Qed.

(** No handler but the load writes to the snapshot. *)
Lemma dispatch_keeps_original ev st :
  separate st → is_load ev = false →
  original_matrix (dispatch contains_point ev st).1 = original_matrix st.
Proof.
  intros Hsep Hev. destruct ev as [e|key| |dialog|path ok|r|]; simpl; try done.
  - apply same_arrays_matrices, on_click_same_arrays.
  - apply same_arrays_matrices, on_key_press_same_arrays.
  - by apply reset_image_keeps_original.
  - by apply fill_region_keeps_original.
  - apply same_arrays_matrices, save_csv_same_arrays.
  - by apply reset_image_keeps_original.
Qed.

Lemma dispatch_fills_bounded ev st :
  separate st → fills_bounded st → fills_bounded (dispatch contains_point ev st).1.
Proof.
  intros Hsep Hb. destruct ev as [e|key| |dialog|path ok|r|]; simpl.
  - by eapply same_arrays_fills_bounded; [apply on_click_same_arrays|].
  - by eapply same_arrays_fills_bounded; [apply on_key_press_same_arrays|].
  - by apply reset_image_fills_bounded.
  - by apply fill_region_fills_bounded.
  - by eapply same_arrays_fills_bounded; [apply save_csv_same_arrays|].
  - eapply same_arrays_fills_bounded; [apply load_new_csv_state|].
    by apply load_csv_fills_bounded.
  - by apply reset_image_fills_bounded.
Qed.

Lemma dispatch_filled_in_range ev st v :
  Print_filled v ∈ (dispatch contains_point ev st).2 → in_fill_range v.
Proof.
  destruct ev as [e|key| |dialog|path ok|r|]; simpl;
    try apply fill_region_filled_in_range.
  - unfold on_click. repeat case_match; not_filled.
  - unfold on_key_press, close_region, cancel_selection. repeat case_match; not_filled.
  - unfold reset_image. destruct (original_data st); not_filled.
  - unfold save_csv. repeat case_match; not_filled.
  - unfold load_new_csv, load_csv. destruct r as [| |a]; try not_filled.
    simpl. destruct (flat a); not_filled.
  - unfold undo_last_action, reset_image. destruct (original_data st); not_filled.
Qed.

Lemma run_events_cons ev evs st :
  run_events contains_point (ev :: evs) st =
    ((run_events contains_point evs (dispatch contains_point ev st).1).1,
     (dispatch contains_point ev st).2
       ++ (run_events contains_point evs (dispatch contains_point ev st).1).2).
Proof.
  simpl. destruct (dispatch contains_point ev st) as [st1 out]. simpl.
  by destruct (run_events contains_point evs st1).
Qed.

Lemma run_events_separate evs : ∀ st,
  separate st → separate (run_events contains_point evs st).1.
Proof.
  induction evs as [|ev evs IH]; intros st Hsep; [done|].
  rewrite run_events_cons. simpl. by apply IH, dispatch_separate.
Qed.

Lemma run_events_keeps_original evs : ∀ st,
  separate st → Forall (λ ev, is_load ev = false) evs →
  original_matrix (run_events contains_point evs st).1 = original_matrix st.
Proof.
  induction evs as [|ev evs IH]; intros st Hsep Hevs; [done|].
  apply Forall_cons in Hevs as [Hev Hevs].
  rewrite run_events_cons. simpl. rewrite IH by auto using dispatch_separate.
  by apply dispatch_keeps_original.
Qed.

Lemma run_events_fills_bounded evs : ∀ st,
  separate st → fills_bounded st →
  fills_bounded (run_events contains_point evs st).1 ∧
  ∀ v, Print_filled v ∈ (run_events contains_point evs st).2 → in_fill_range v.
Proof.
  induction evs as [|ev evs IH]; intros st Hsep Hb.
  - split; [done|]. simpl. by intros v ?%not_elem_of_nil.
  - rewrite run_events_cons. simpl.
    destruct (IH (dispatch contains_point ev st).1) as [IH1 IH2];
      [by apply dispatch_separate | by apply dispatch_fills_bounded |].
    split; [done|]. intros v [Hin|Hin]%elem_of_app; [|by apply IH2].
    by apply (dispatch_filled_in_range ev st).
Qed.

(** In a session started on a new editor the working array and the snapshot
    are allocated and distinct. *)
Lemma session_separate evs : separate (run_events contains_point evs init).1.
Proof. by apply run_events_separate. Qed.

Lemma fill_region_well_shaped dialog st :
  separate st → arrays_well_shaped st →
  arrays_well_shaped (fill_region contains_point dialog st).1.
Proof.
  intros Hsep [Hwd Hwo].
  destruct (fill_region_cases dialog st) as [[-> _]|(rd & sel & w & Hd & Hsel & Hne & Hany & Hask)];
    [done|].
  pose proof (fill_region_keeps_original dialog st Hsep) as Hor.
  rewrite (fill_region_filled contains_point st dialog rd sel w) in * by done.
  split; [|intros o; rewrite Hor; apply Hwo].
  unfold separate in Hsep. rewrite Hd in Hsep.
  destruct (original_data st) as [ro|]; [|done]. destruct Hsep as (_ & Hrd & _).
  intros d. unfold current_matrix. simpl. rewrite Hd. simpl.
  unfold deref at 1. simpl. rewrite list_lookup_total_insert_eq by done.
  intros [= <-].
  assert (Hw : well_shaped (deref st rd)).
  { apply Hwd. unfold current_matrix. by rewrite Hd. }
  eapply (setitem_mask_well_shaped (deref st rd) _
            (create_polygon_mask contains_point sel (shape (deref st rd))) w);
    [done | apply create_polygon_mask_well_shaped |].
  unfold setitem_mask. by rewrite decide_True by done.
Qed.

Lemma dispatch_well_shaped ev st :
  separate st → arrays_well_shaped st → loads_well_shaped ev →
  arrays_well_shaped (dispatch contains_point ev st).1.
Proof.
  intros Hsep Hw Hev.
  assert (Hsame : ∀ st', same_arrays st st' → arrays_well_shaped st').
  { intros st' Hs. unfold arrays_well_shaped.
    by destruct (same_arrays_matrices _ _ Hs) as [-> ->]. }
  assert (Hreset : arrays_well_shaped (reset_image st).1).
  { destruct Hw as [Hwd Hwo]. unfold separate in Hsep.
    destruct (original_data st) as [ro|] eqn:Ho.
    - destruct (data st) as [rd|]; [|done]. destruct Hsep as (_ & _ & Hro).
      destruct (reset_image_copies st ro Ho Hro) as (_ & _ & _ & Hc & Hor).
      split; intros x; rewrite ?Hc, ?Hor; apply Hwo.
    - unfold reset_image. rewrite Ho. simpl. by split. }
  destruct ev as [e|key| |dialog|path ok|r|]; simpl; try done.
  - apply Hsame, on_click_same_arrays.
  - apply Hsame, on_key_press_same_arrays.
  - by apply fill_region_well_shaped.
  - apply Hsame, save_csv_same_arrays.
  - unfold arrays_well_shaped.
    destruct (same_arrays_matrices _ _ (load_new_csv_state r st)) as [-> ->].
    destruct r as [| |a]; try done. simpl in Hev.
    destruct (load_csv_ok_arrays a st) as (_ & _ & _ & -> & -> & _).
    split; by intros x [= <-].
Qed.

(** When the reader returns rectangular tables, the arrays of a session are
    rectangular throughout. *)
Lemma session_well_shaped evs :
  Forall loads_well_shaped evs →
  arrays_well_shaped (run_events contains_point evs init).1.
Proof.
  assert (H : ∀ st, separate st → arrays_well_shaped st → Forall loads_well_shaped evs →
                arrays_well_shaped (run_events contains_point evs st).1).
  { induction evs as [|ev evs IH]; intros st Hsep Hw Hevs; [done|].
    apply Forall_cons in Hevs as [Hev Hevs].
    rewrite run_events_cons. simpl.
    apply IH; auto using dispatch_separate, dispatch_well_shaped. }
  by apply H.
Qed.

(** C2. After a successful load of a matrix [a], whatever handlers run next
    short of another load (clicks, key presses, fills, cancels, resets, undos,
    saves), the snapshot still holds [a]; and a reset then leaves both the
    working array and the snapshot equal to [a]. *)
Theorem reset_restores_loaded_matrix (st0 : editor) (a : ndarray Q) (evs : list event) :
  Forall (λ ev, is_load ev = false) evs →
  let st1 := (load_csv (Read_ok a) st0).1.1 in
  let st2 := (run_events contains_point evs st1).1 in
  let st3 := (reset_image st2).1 in
  current_matrix st1 = Some a ∧ original_matrix st1 = Some a ∧
  original_matrix st2 = Some a ∧
  current_matrix st3 = Some a ∧ original_matrix st3 = Some a.
Proof.
  intros Hevs st1 st2 st3.
  destruct (load_csv_ok_arrays a st0) as (_ & _ & _ & Hc1 & Ho1 & _). fold st1 in Hc1, Ho1.
  assert (Hsep1 : separate st1) by apply load_csv_ok_separate.
  assert (Hsep2 : separate st2) by by apply run_events_separate.
  assert (Ho2 : original_matrix st2 = Some a).
  { unfold st2. by rewrite run_events_keeps_original. }
  split_and!; try done.
  - unfold separate in Hsep2. unfold original_matrix in Ho2.
    destruct (original_data st2) as [ro|] eqn:Hro; [|done].
    destruct (data st2) as [rd|]; [|done]. destruct Hsep2 as (_ & _ & Hlt).
    destruct (reset_image_copies st2 ro Hro Hlt) as (_ & _ & _ & Hc3 & _).
    fold st3 in Hc3. rewrite Hc3. unfold original_matrix. by rewrite Hro.
  - unfold st3. by rewrite reset_image_keeps_original.
Qed.

(** C10. In a session started on a new editor, every value a fill reports
    having written lies in the closed interval from 0 to 100, and at the end
    every pixel of the working array holds either the value the snapshot has
    at that pixel or a value in that interval. *)
Theorem fill_values_within_prompt_range (evs : list event) :
  let st := (run_events contains_point evs init).1 in
  let out := (run_events contains_point evs init).2 in
  (∀ v, Print_filled v ∈ out → (0 <= v <= 100)%Q) ∧
  (∀ d o, current_matrix st = Some d → original_matrix st = Some o →
     shape d = shape o ∧
     ∀ r c x, pixel d r c = Some x → pixel o r c = Some x ∨ (0 <= x <= 100)%Q).
Proof.
  intros st out.
  destruct (run_events_fills_bounded evs init) as [Hb Hv]; [done | done |].
  split; [exact Hv | exact Hb].
Qed.

End Sessions.

(** ** The worked session, evaluated *)

(** Filling the square with 99 (after a first entry of 150, which the prompt
    refuses) writes 99 to the 2 x 2 block of pixels the test puts inside, and
    nothing else; the snapshot keeps its zeros. *)
Example fill_square_with_99 :
  let st := (fill_region even_odd_contains
               [Press_ok (Some 150%Q); Press_ok (Some 99%Q)] square_selected).1 in
  current_matrix st =
    Some (mk_ndarray float64 (5, 5)
            [0; 0; 0; 0; 0;
             0; 99; 99; 0; 0;
             0; 99; 99; 0; 0;
             0; 0; 0; 0; 0;
             0; 0; 0; 0; 0]%Q) ∧
  original_matrix st = Some zeros_5x5 ∧
  selection_state st = selection_state init.
Proof. vm_compute. done. Qed.

(** On the table of integers a fill with 50.5 stores 50 at the centre of the
    square, and prints 50.5. *)
Lemma fill_region_truncates_on_integer_array_witness :
  let run := fill_region even_odd_contains [Press_ok (Some (101 # 2))] int_square_selected in
  ∃ a', current_matrix run.1 = Some a' ∧
    pixel a' 2 2 = Some 50%Q ∧
    (∀ x, pixel a' 2 2 = Some x → ¬ (x == 101 # 2)%Q) ∧
    Print_filled (101 # 2) ∈ run.2.
Proof.
  destruct (fill_region_truncates_on_integer_array even_odd_contains int_square_selected
              [Press_ok (Some (101 # 2))] 0 [(1, 1); (3, 1); (3, 3); (1, 3)]%Z (101 # 2) 2 2)
    as (a' & Ha' & Hpx & Hne & Hout).
  - reflexivity.
  - vm_compute. lia.
  - reflexivity.
  - reflexivity.
  - reflexivity.
  - discriminate.
  - reflexivity.
  - reflexivity.
  - exists a'. split; [exact Ha'|]. split; [exact Hpx|]. split; [|exact Hout].
    apply Hne. vm_compute. discriminate.
Defined.

Lemma fill_region_writes_converted_value_witness :
  ∃ a', current_matrix (fill_region even_odd_contains [Press_ok (Some 99%Q)] square_selected).1
          = Some a' ∧
    shape a' = (5, 5) ∧ pixel a' 2 2 = Some 99%Q ∧ pixel a' 0 0 = Some 0%Q.
Proof.
  destruct (fill_region_writes_converted_value even_odd_contains square_selected
              [Press_ok (Some 99%Q)] 0 [(1, 1); (3, 1); (3, 3); (1, 3)]%Z 99%Q)
    as (a' & Ha' & Hsh & _ & _ & _ & Hin & Hout & _).
  - reflexivity.
  - vm_compute. lia.
  - reflexivity.
  - reflexivity.
  - discriminate.
  - vm_compute. lia.
  - reflexivity.
  - exists a'. split; [exact Ha'|]. split; [exact Hsh|]. split.
    + apply Hin; reflexivity.
    + rewrite Hout by reflexivity. reflexivity.
Defined.

Lemma reset_restores_loaded_matrix_witness :
  current_matrix
    (reset_image
       (run_events even_odd_contains
          (draw_square ++ [Click_fill [Press_ok (Some 99%Q)]; Key_press "escape"])
          loaded_5x5).1).1 = Some zeros_5x5.
Proof.
  apply (reset_restores_loaded_matrix even_odd_contains init zeros_5x5
           (draw_square ++ [Click_fill [Press_ok (Some 99%Q)]; Key_press "escape"])).
  repeat constructor.
Defined.

Lemma fill_region_empty_mask_witness :
  fill_region even_odd_contains [Press_ok (Some 99%Q)] diagonal_selected
    = (diagonal_selected, [Warn_region_empty]).
Proof.
  apply (fill_region_empty_mask even_odd_contains diagonal_selected
           [Press_ok (Some 99%Q)] 0 [(1, 1); (2, 2); (3, 3)]%Z).
  - reflexivity.
  - reflexivity.
  - discriminate.
  - vm_compute. reflexivity.
Defined.

Lemma on_click_appends_in_bounds_witness :
  points (on_click (mk_mouse_event true 1 (13 # 10) 2) loaded_5x5).1 = [(1, 2)%Z] ∧
  on_click (mk_mouse_event true 1 (-13 # 10) 2) loaded_5x5 = (loaded_5x5, []).
Proof.
  split.
  - apply (on_click_appends_in_bounds loaded_5x5 (mk_mouse_event true 1 (13 # 10) 2) 0);
      [reflexivity | reflexivity | reflexivity |]. vm_compute. intuition discriminate.
  - apply (on_click_appends_in_bounds loaded_5x5 (mk_mouse_event true 1 (-13 # 10) 2) 0);
      [reflexivity | reflexivity | reflexivity |]. vm_compute. intuition discriminate.
Defined.

Lemma close_region_needs_three_points_witness :
  close_region loaded_5x5 = (loaded_5x5, [Warn_need_three_points]) ∧
  current_selection (close_region (set_points [(1, 1); (3, 1); (3, 3)]%Z loaded_5x5)).1
    = Some [(1, 1); (3, 1); (3, 3)]%Z.
Proof.
  split.
  - apply (close_region_needs_three_points loaded_5x5). simpl. lia.
  - apply (close_region_needs_three_points
             (set_points [(1, 1); (3, 1); (3, 3)]%Z loaded_5x5)). simpl. lia.
Defined.


(** Undo is not a step back: after two fills it returns the image as loaded,
    not the image as it was after the first fill. *)
Example undo_discards_every_fill :
  let st := (run_events even_odd_contains fill_twice loaded_5x5).1 in
  current_matrix st ≫= (λ a, pixel a 1 1) = Some 50%Q ∧
  current_matrix (undo_last_action st).1 = Some zeros_5x5.
Proof. vm_compute. done. Qed.

(** ** How a handler moves the selection *)

Section Selection.

Variable contains_point : list point → point → bool.

(** One handler call either clears the selection, leaves it alone, appends
    one pixel of the working image to the point list, or commits the point
    list (of three points at least) as the selection. *)
Lemma dispatch_selection_step ev st :
  let st' := (dispatch contains_point ev st).1 in
  (points st' = [] ∧ polygon st' = None ∧ current_selection st' = None) ∨
  (points st' = points st ∧ polygon st' = polygon st ∧
   current_selection st' = current_selection st) ∨
  (∃ p rd, data st = Some rd ∧ in_image (shape (deref st rd)) p ∧ same_arrays st st' ∧
     points st' = points st ++ [p] ∧ polygon st' = polygon st ∧
     current_selection st' = current_selection st) ∨
  (3 ≤ length (points st) ∧ same_arrays st st' ∧ points st' = points st ∧
   polygon st' = Some (points st) ∧ current_selection st' = Some (points st)).
Proof.
  destruct ev as [e|key| |dialog|path ok|r|]; simpl.
  - unfold on_click. destruct (inaxes e); simpl; [|auto].
    destruct (button e =? 1); [|auto].
    destruct (data st) as [rd|] eqn:Hd; [|destruct (0 <=? _)%Z; auto].
    destruct (Z.leb_spec 0 (int (xdata e))), (Z.ltb_spec (int (xdata e)) (Z.of_nat (ncols (deref st rd)))),
      (Z.leb_spec 0 (int (ydata e))), (Z.ltb_spec (int (ydata e)) (Z.of_nat (nrows (deref st rd))));
      simpl; auto.
    right. right. left. exists (int (xdata e), int (ydata e)), rd.
    unfold in_image, nrows, ncols in *. simpl. by repeat split.
  - unfold on_key_press, close_region.
    destruct (String.eqb key "enter");
      [destruct (Nat.leb_spec 3 (length (points st))) as [Hge|Hlt]|]; cbn [andb].
    + destruct (Nat.ltb_spec (length (points st)) 3); [lia|]. cbn.
      do 3 right. by repeat split.
    + destruct (String.eqb key "escape"); rewrite ?cancel_selection_state; cbn; auto.
    + destruct (String.eqb key "escape"); rewrite ?cancel_selection_state; cbn; auto.
  - unfold reset_image. destruct (original_data st); simpl; auto.
  - destruct (fill_region_cases contains_point dialog st)
      as [[-> _]|(rd & sel & w & Hd & Hsel & Hne & Hany & Hask)]; [auto|].
    rewrite (fill_region_filled contains_point st dialog rd sel w) by done. simpl. auto.
  - unfold save_csv. repeat case_match; simpl; auto.
  - unfold load_new_csv.
    destruct r as [| |a]; simpl; auto.
    destruct (flat a); simpl; auto.
  - unfold undo_last_action, reset_image. destruct (original_data st); simpl; auto.
Qed.

(** A handler either keeps the arrays as they are or leaves no selection
    behind (a reader that returns a table without cells apart). *)
Lemma dispatch_arrays_or_cleared ev st :
  nonempty_load ev →
  let st' := (dispatch contains_point ev st).1 in
  same_arrays st st' ∨
  (points st' = [] ∧ polygon st' = None ∧ current_selection st' = None).
Proof.
  intros Hev. destruct ev as [e|key| |dialog|path ok|r|]; simpl.
  - left. apply on_click_same_arrays.
  - left. apply on_key_press_same_arrays.
  - unfold reset_image. destruct (original_data st); simpl; auto using same_arrays_refl.
  - destruct (fill_region_cases contains_point dialog st)
      as [[-> _]|(rd & sel & w & Hd & Hsel & Hne & Hany & Hask)]; [auto using same_arrays_refl|].
    rewrite (fill_region_filled contains_point st dialog rd sel w) by done. simpl. auto.
  - left. apply save_csv_same_arrays.
  - unfold load_new_csv. destruct r as [| |a]; simpl; auto using same_arrays_refl.
    simpl in Hev. destruct (flat a); [done|]. simpl. auto.
  - unfold undo_last_action, reset_image.
    destruct (original_data st); simpl; auto using same_arrays_refl.
Qed.

(** An invariant of every handler is an invariant of every session. *)
Lemma run_events_invariant (P : editor → Prop) (ok_event : event → Prop) :
  (∀ ev st, ok_event ev → P st → P (dispatch contains_point ev st).1) →
  ∀ evs st, Forall ok_event evs → P st → P (run_events contains_point evs st).1.
Proof.
  intros Hstep. induction evs as [|ev evs IH]; intros st Hevs HP; [done|].
  apply Forall_cons in Hevs as [Hev Hevs].
  rewrite run_events_cons. simpl. apply IH; auto.
Qed.

(** X1. In a session started on a new editor, a committed selection always
    has three points or more, and the polygon patch is there exactly when a
    selection is committed, made of the same points. *)
Theorem session_committed_selection (evs : list event) :
  let st := (run_events contains_point evs init).1 in
  polygon st = current_selection st ∧
  ∀ sel, current_selection st = Some sel → 3 ≤ length sel.
Proof.
  apply (run_events_invariant
           (λ st, polygon st = current_selection st ∧
                  ∀ sel, current_selection st = Some sel → 3 ≤ length sel)
           (λ _, True)).
  - intros ev st _ [Hpoly Hlen].
    destruct (dispatch_selection_step ev st)
      as [(_ & -> & ->)|[(_ & -> & ->)|[(p & rd & _ & _ & _ & _ & -> & ->)|(Hge & _ & _ & -> & ->)]]];
      try done.
    split; [done|]. by intros sel [= <-].
  - by apply Forall_true.
  - done.
Qed.

(** A load, whatever comes of it, leaves the selection as it was. *)
Lemma load_csv_selection_state r st :
  selection_state (load_csv r st).1.1 = selection_state st.
Proof. destruct r as [| |a]; [done | done | apply load_csv_ok_arrays]. Qed.

(** X2. In a session started by [run], as long as no other file is loaded,
    every point of the point list and of the committed selection is a pixel
    of the working image: 0 <= x < cols and 0 <= y < rows. *)
Theorem session_points_in_image (r : read_result) (evs : list event) :
  Forall (λ ev, is_load ev = false) evs →
  let st := (run contains_point r evs init).1 in
  ∀ a, current_matrix st = Some a →
    Forall (in_image (shape a)) (points st) ∧
    ∀ sel, current_selection st = Some sel → Forall (in_image (shape a)) sel.
Proof.
  intros Hevs.
  set (P := λ st : editor, ∀ a, current_matrix st = Some a →
              Forall (in_image (shape a)) (points st) ∧
              ∀ sel, current_selection st = Some sel → Forall (in_image (shape a)) sel).
  assert (Hload : P (load_csv r init).1.1).
  { pose proof (load_csv_selection_state r init) as Hsel.
    unfold selection_state in Hsel. injection Hsel as Hpts _ Hcur.
    intros a _. rewrite Hpts, Hcur. by split. }
  assert (Hstep : ∀ ev st, is_load ev = false → P st → P (dispatch contains_point ev st).1).
  { clear. intros ev st Hev Hinv a Ha.
    assert (Hne : nonempty_load ev) by by destruct ev.
    destruct (dispatch_arrays_or_cleared ev st Hne) as [Hsame|(-> & _ & ->)]; [|by split].
    destruct (same_arrays_matrices _ _ Hsame) as [Hcur _]. rewrite Hcur in Ha.
    destruct (Hinv a Ha) as [Hpts Hsel].
    destruct (dispatch_selection_step ev st)
      as [(-> & _ & ->)|[(-> & _ & ->)|[(p & rd & Hd & Hp & _ & -> & _ & ->)|(_ & _ & -> & _ & ->)]]];
      try done.
    - split; [|done]. apply Forall_app. split; [done|]. apply Forall_singleton.
      unfold current_matrix in Ha. rewrite Hd in Ha. simpl in Ha. by injection Ha as <-.
    - split; [done|]. by intros sel [= <-]. }
  change (P (run contains_point r evs init).1). unfold run.
  destruct (load_csv r init) as [[st1 out] ok]. simpl in Hload.
  destruct ok; [|done].
  pose proof (run_events_invariant P (λ ev, is_load ev = false) Hstep evs st1 Hevs Hload) as Hrun.
  by destruct (run_events contains_point evs st1).
Qed.

End Selection.

(** ** More on filling, resetting and saving *)


Lemma np_sum_le_cells (mask : ndarray bool) : np_sum mask ≤ length (flat mask).
Proof. unfold np_sum. apply length_filter. Qed.

Lemma on_clicks_sets_points es : ∀ st, ∃ ps, on_clicks es st = set_points ps st.
Proof.
  induction es as [|e es IH]; intros st.
  - exists (points st). by destruct st.
  - unfold on_clicks in *. simpl.
    assert (Hone : ∃ ps, (on_click e st).1 = set_points ps st).
    { unfold on_click. repeat case_match; simpl;
        try (exists (points st); by destruct st). eauto. }
    destruct Hone as [ps ->]. destruct (IH (set_points ps st)) as [ps' ->]. by exists ps'.
Qed.

Section FillMore.

Variable contains_point : list point → point → bool.

(** X3. [fill_region] is all or nothing.  Either it returns the editor
    exactly as it was and reports no fill, or it has gone all the way: the
    value is within 0 and 100, between one pixel and all pixels are reported
    modified, the selection is cleared, and the working array and the
    snapshot are still the same two arrays of the store. *)
Theorem fill_region_all_or_nothing (dialog : list user_action) (st : editor) :
  let st' := (fill_region contains_point dialog st).1 in
  let out := (fill_region contains_point dialog st).2 in
  (st' = st ∧ ∀ v, Print_filled v ∉ out) ∨
  (∃ v n avg,
     out = [Print_filled v; Print_modified n; Print_previous_average avg;
            Print_selection_cancelled] ∧
     (0 <= v <= 100)%Q ∧ 1 ≤ n ∧
     (∀ a, current_matrix st = Some a → n ≤ nrows a * ncols a) ∧
     selection_state st' = selection_state init ∧
     data st' = data st ∧ original_data st' = original_data st ∧
     length (store st') = length (store st)).
Proof.
  destruct (fill_region_cases contains_point dialog st)
    as [H|(rd & sel & w & Hd & Hsel & Hne & Hany & Hask)]; [by left|].
  right. rewrite (fill_region_filled contains_point st dialog rd sel w) by done. simpl.
  eexists _, _, _. split; [done|]. split_and!; try done.
  - by apply askfloat_in_range in Hask as [? ?].
  - by apply askfloat_in_range in Hask as [? ?].
  - destruct (np_sum _) eqn:E; [|lia].
    apply np_any_false_iff in E. congruence.
  - intros a. unfold current_matrix. rewrite Hd. simpl. intros [= <-].
    etrans; [apply np_sum_le_cells|]. simpl.
    by rewrite length_map, mgrid_coords_length.
  - by rewrite length_insert.
Qed.

(** X4. A fill consumes the selection: a second click on the fill button
    right after a fill that went through only shows "Please select a region
    first" and changes nothing. *)
Theorem fill_region_consumes_selection (d1 d2 : list user_action) (st : editor) (v : Q) :
  Print_filled v ∈ (fill_region contains_point d1 st).2 →
  fill_region contains_point d2 (fill_region contains_point d1 st).1
    = ((fill_region contains_point d1 st).1, [Warn_select_region_first]).
Proof.
  destruct (fill_region_cases contains_point d1 st)
    as [[_ Hno]|(rd & sel & w & Hd & Hsel & Hne & Hany & Hask)].
  - intros Hin. by destruct (Hno v).
  - intros _. by rewrite (fill_region_filled contains_point st d1 rd sel w) by done.
Qed.

(** X5. The shape of the working array is fixed by the load: whatever
    handlers run after a successful load of [a], short of another load, the
    working array still has the shape of [a]. *)
Theorem session_keeps_shape (st0 : editor) (a : ndarray Q) (evs : list event) :
  Forall (λ ev, is_load ev = false) evs →
  let st1 := (load_csv (Read_ok a) st0).1.1 in
  ∃ d, current_matrix (run_events contains_point evs st1).1 = Some d ∧ shape d = shape a.
Proof.
  intros Hevs st1.
  destruct (load_csv_ok_arrays a st0) as (_ & _ & _ & Hc1 & Ho1 & _). fold st1 in Hc1, Ho1.
  assert (Hsep1 : separate st1) by apply load_csv_ok_separate.
  assert (Hb1 : fills_bounded st1).
  { intros d o. rewrite Hc1, Ho1. intros [= <-] [= <-]. auto. }
  destruct (run_events_fills_bounded contains_point evs st1 Hsep1 Hb1) as [Hb2 _].
  pose proof (run_events_separate contains_point evs st1 Hsep1) as Hsep2.
  pose proof (run_events_keeps_original contains_point evs st1 Hsep1 Hevs) as Ho2.
  rewrite Ho1 in Ho2.
  set (st2 := (run_events contains_point evs st1).1) in *.
  unfold separate in Hsep2.
  destruct (data st2) as [rd|] eqn:Hrd.
  - exists (deref st2 rd).
    assert (Hc2 : current_matrix st2 = Some (deref st2 rd)).
    { unfold current_matrix. by rewrite Hrd. }
    split; [done|]. by destruct (Hb2 _ _ Hc2 Ho2).
  - unfold original_matrix in Ho2. by destruct (original_data st2).
Qed.

(** X6. The mask has the shape it was asked for, and a pixel of the image
    taken as a point (x, y) = (column, row), the way [on_click] stores it, has
    for mask bit the containment test at that point. *)
Theorem create_polygon_mask_convention (pts : list point) (sh : nat * nat) (p : point) :
  in_image sh p →
  let mask := create_polygon_mask contains_point pts sh in
  shape mask = sh ∧ length (flat mask) = sh.1 * sh.2 ∧
  pixel mask (Z.to_nat p.2) (Z.to_nat p.1) = Some (contains_point pts p).
Proof.
  intros [[Hx0 Hx1] [Hy0 Hy1]] mask. split; [done|]. split.
  - apply (create_polygon_mask_well_shaped contains_point pts sh).
  - unfold mask. rewrite pixel_create_polygon_mask by lia.
    rewrite !Z2Nat.id by done. by destruct p.
Qed.

(** X9. Clicks made after the region was closed do not change what the fill
    does: same messages, same working array, same snapshot afterwards. *)
Theorem clicks_after_close_keep_the_fill (es : list mouse_event)
    (dialog : list user_action) (st : editor) :
  let st1 := on_clicks es st in
  (fill_region contains_point dialog st1).2 = (fill_region contains_point dialog st).2 ∧
  current_matrix (fill_region contains_point dialog st1).1
    = current_matrix (fill_region contains_point dialog st).1 ∧
  original_matrix (fill_region contains_point dialog st1).1
    = original_matrix (fill_region contains_point dialog st).1.
Proof.
  intros st1. destruct (on_clicks_sets_points es st) as [ps Hps].
  unfold st1. rewrite Hps. clear.
  unfold fill_region, deref. simpl.
  destruct (current_selection st) as [[|p sel]|]; [done| |done].
  destruct (data st) as [rd|]; [|done].
  destruct (negb _); [done|].
  destruct (getitem_mask _ _); [|done].
  destruct (askfloat 0 100 dialog); [|done].
  by destruct (setitem_mask _ _ _).
Qed.

End FillMore.

Section SessionsMore.

Variable contains_point : list point → point → bool.

Lemma run_events_app evs1 : ∀ evs2 st,
  run_events contains_point (evs1 ++ evs2) st =
    ((run_events contains_point evs2 (run_events contains_point evs1 st).1).1,
     (run_events contains_point evs1 st).2
       ++ (run_events contains_point evs2 (run_events contains_point evs1 st).1).2).
Proof.
  induction evs1 as [|ev evs1 IH]; intros evs2 st.
  - simpl. by destruct (run_events contains_point evs2 st).
  - rewrite <- app_comm_cons, !run_events_cons, IH. simpl. by rewrite app_assoc.
Qed.

(** X7. Saving is transparent: a session with a click on the save button
    anywhere in it ends in the state of the same session without that click.
    When the dialog gave a path and the writer did not fail, what was handed
    to the writer is the working array as it was at that moment, fills
    included. *)
Theorem save_csv_is_transparent (evs1 evs2 : list event) (path : string) (ok : bool)
    (st : editor) :
  (run_events contains_point (evs1 ++ Click_save path ok :: evs2) st).1
    = (run_events contains_point (evs1 ++ evs2) st).1 ∧
  (path ≠ "" → ok = true →
   Wrote_csv path (current_matrix (run_events contains_point evs1 st).1)
     ∈ (run_events contains_point (evs1 ++ Click_save path ok :: evs2) st).2).
Proof.
  rewrite !run_events_app, run_events_cons. simpl.
  set (st1 := (run_events contains_point evs1 st).1).
  assert (Hst : (save_csv path ok st1).1 = st1).
  { unfold save_csv. by repeat case_match. }
  split; [by rewrite Hst|].
  intros Hpath ->. unfold save_csv.
  destruct (String.eqb_spec path ""); [done|]. simpl.
  apply elem_of_app. right. apply elem_of_cons. by left.
Qed.





End SessionsMore.

(** * Facts about the batch pipeline *)

Lemma grid_length {A} (f : nat → nat → A) (rs rn cs cn : nat) :
  length (flat_map (λ i, map (f i) (seq cs cn)) (seq rs rn)) = rn * cn.
Proof.
  revert rs. induction rn as [|rn IH]; intros rs; simpl; [done|].
  by rewrite length_app, length_map, length_seq, IH.
Qed.

Lemma grid_lookup {A} (f : nat → nat → A) (rs rn cs cn r c : nat) :
  r < rn → c < cn →
  flat_map (λ i, map (f i) (seq cs cn)) (seq rs rn) !! (r * cn + c)
    = Some (f (rs + r) (cs + c)).
Proof.
  revert r rs. induction rn as [|rn IH]; intros r rs Hr Hc; [lia|].
  simpl. destruct r as [|r].
  - rewrite lookup_app_l by (rewrite length_map, length_seq; simpl; lia).
    simpl. rewrite list_lookup_fmap, lookup_seq_lt by done. simpl.
    by rewrite Nat.add_0_r.
  - rewrite lookup_app_r by (rewrite length_map, length_seq; simpl; lia).
    rewrite length_map, length_seq.
    replace (S r * cn + c - cn) with (r * cn + c) by (simpl; lia).
    rewrite IH by lia. do 2 f_equal. lia.
Qed.

(** Membership in a list put together with [::] and [++]. *)
Ltac in_list :=
  match goal with
  | |- _ ∈ _ :: _ => first [apply list_elem_of_here | apply list_elem_of_further; in_list]
  | |- _ ∈ _ ++ _ =>
      first [apply elem_of_app; left; in_list | apply elem_of_app; right; in_list]
  | |- _ => assumption
  end.

Module ProcessorFacts.
Import Processor.

Lemma clamp_index_le (n : nat) (i : Z) : clamp_index n i ≤ n.
Proof. unfold clamp_index. repeat case_match; lia. Qed.

Lemma clamp_index_in_range (n i : nat) : i ≤ n → clamp_index n (Z.of_nat i) = i.
Proof. intros Hi. unfold clamp_index. repeat case_match; lia. Qed.

Lemma clamp_index_from_end (n k : nat) : k ≤ n → 0 < k → clamp_index n (- Z.of_nat k) = n - k.
Proof. intros Hk Hpos. unfold clamp_index. repeat case_match; lia. Qed.

Lemma slice_range_fits (n : nat) (start stop : option Z) :
  (slice_range n start stop).1 + (slice_range n start stop).2 ≤ n.
Proof.
  unfold slice_range. simpl.
  assert (Hs : from_option (clamp_index n) 0 start ≤ n).
  { destruct start; simpl; [apply clamp_index_le | lia]. }
  assert (He : from_option (clamp_index n) n stop ≤ n).
  { destruct stop; simpl; [apply clamp_index_le | lia]. }
  lia.
Qed.

(** What [iloc] returns, position by position. *)
Lemma iloc_spec (a : ndarray Q) (r0 r1 c0 c1 : option Z) :
  well_shaped a →
  let rs := (slice_range (nrows a) r0 r1).1 in
  let rn := (slice_range (nrows a) r0 r1).2 in
  let cs := (slice_range (ncols a) c0 c1).1 in
  let cn := (slice_range (ncols a) c0 c1).2 in
  shape (iloc a r0 r1 c0 c1) = (rn, cn) ∧
  well_shaped (iloc a r0 r1 c0 c1) ∧
  ∀ r c, r < rn → c < cn → pixel (iloc a r0 r1 c0 c1) r c = pixel a (rs + r) (cs + c).
Proof.
  intros Hw rs rn cs cn.
  pose proof (slice_range_fits (nrows a) r0 r1) as Hr.
  pose proof (slice_range_fits (ncols a) c0 c1) as Hc.
  fold rs rn in Hr. fold cs cn in Hc.
  unfold iloc.
  destruct (slice_range (nrows a) r0 r1) as [rs' rn'] eqn:Er.
  destruct (slice_range (ncols a) c0 c1) as [cs' cn'] eqn:Ec.
  simpl in rs, rn, cs, cn. subst rs rn cs cn.
  split; [done|]. split.
  - unfold well_shaped, nrows, ncols. simpl. apply grid_length.
  - intros r c Hlr Hlc.
    rewrite (pixel_lookup a) by lia.
    rewrite pixel_lookup by (unfold nrows, ncols; simpl; lia).
    unfold ncols at 1. simpl.
    rewrite (grid_lookup (λ i j, flat a !!! (i * ncols a + j))) by done.
    symmetry. apply list_lookup_lookup_total_lt. rewrite Hw. nia.
Qed.

(** [iloc] with every bound omitted returns the table. *)
Lemma iloc_all (a : ndarray Q) : well_shaped a → iloc a None None None None = a.
Proof.
  intros Hw. destruct a as [dt [R C] l]. unfold well_shaped, nrows, ncols in Hw.
  simpl in Hw. unfold iloc, slice_range, nrows, ncols. simpl.
  rewrite !Nat.sub_0_r. f_equal.
  apply list_eq. intros i.
  destruct (decide (i < R * C)) as [Hi|Hi].
  - assert (HC : 0 < C) by nia.
    assert (Hr : i / C < R) by (apply Nat.Div0.div_lt_upper_bound; lia).
    assert (Hc : i mod C < C) by (apply Nat.mod_upper_bound; lia).
    assert (Hidx : i = i / C * C + i mod C).
    { rewrite (Nat.div_mod_eq i C) at 1. lia. }
    rewrite Hidx at 1.
    rewrite (grid_lookup (λ i j, l !!! (i * C + j))) by done. simpl.
    rewrite <- Hidx. symmetry. apply list_lookup_lookup_total_lt. lia.
  - rewrite lookup_ge_None_2 by (rewrite grid_length; lia).
    symmetry. apply lookup_ge_None_2. lia.
Qed.

(** X11. Cropping with bounds inside the table (0 <= r0 <= r1 <= rows and
    0 <= c0 <= c1 <= cols) gives a table of r1 - r0 rows and c1 - c0 columns
    whose cell (r, c) is the cell (r0 + r, c0 + c) of the table before. *)
Theorem crop_in_range (st : processor) (a : ndarray Q) (r0 r1 c0 c1 : nat) :
  data st = Some a → well_shaped a →
  r0 ≤ r1 ≤ nrows a → c0 ≤ c1 ≤ ncols a →
  let st' := (crop (Z.of_nat r0) (Some (Z.of_nat r1)) (Z.of_nat c0) (Some (Z.of_nat c1)) st).1 in
  ∃ d, data st' = Some d ∧ shape d = (r1 - r0, c1 - c0) ∧ well_shaped d ∧
    ∀ r c, r < r1 - r0 → c < c1 - c0 → pixel d r c = pixel a (r0 + r) (c0 + c).
Proof.
  intros Hd Hw Hr Hc st'. subst st'. unfold crop. rewrite Hd. simpl.
  eexists. split; [done|].
  destruct (iloc_spec a (Some (Z.of_nat r0)) (Some (Z.of_nat r1))
              (Some (Z.of_nat c0)) (Some (Z.of_nat c1)) Hw) as (Hsh & Hwd & Hpix).
  unfold slice_range in Hsh, Hpix. cbn [from_option fst snd] in Hsh, Hpix.
  rewrite !clamp_index_in_range in Hsh, Hpix by lia.
  by split_and!.
Qed.

(** X12. Negative start bounds count from the end, as in a Python slice:
    cropping from row -k and column -j keeps the last k rows and the last j
    columns. *)
Theorem crop_negative_start (st : processor) (a : ndarray Q) (k j : nat) :
  data st = Some a → well_shaped a →
  0 < k ≤ nrows a → 0 < j ≤ ncols a →
  let st' := (crop (- Z.of_nat k) None (- Z.of_nat j) None st).1 in
  ∃ d, data st' = Some d ∧ shape d = (k, j) ∧
    ∀ r c, r < k → c < j → pixel d r c = pixel a (nrows a - k + r) (ncols a - j + c).
Proof.
  intros Hd Hw Hk Hj st'. subst st'. unfold crop. rewrite Hd. simpl.
  eexists. split; [done|].
  destruct (iloc_spec a (Some (- Z.of_nat k)%Z) (Some (Z.of_nat (nrows a)))
              (Some (- Z.of_nat j)%Z) (Some (Z.of_nat (ncols a))) Hw) as (Hsh & _ & Hpix).
  unfold slice_range in Hsh, Hpix. cbn [from_option fst snd] in Hsh, Hpix.
  rewrite !clamp_index_from_end, !clamp_index_in_range in Hsh, Hpix by lia.
  replace (nrows a - (nrows a - k)) with k in * by lia.
  replace (ncols a - (ncols a - j)) with j in * by lia.
  by split.
Qed.

(** X13. [crop()] with its default arguments leaves the table as it is. *)
Theorem crop_default_is_identity (st : processor) (a : ndarray Q) :
  data st = Some a → well_shaped a →
  data (crop 0 None 0 None st).1 = Some a.
Proof.
  intros Hd Hw. unfold crop. rewrite Hd. simpl. f_equal.
  transitivity (iloc a None None None None); [|by apply iloc_all].
  assert (H0 : ∀ n, clamp_index n 0 = 0) by (intros n; apply (clamp_index_in_range n 0); lia).
  assert (Hn : ∀ n, clamp_index n (Z.of_nat n) = n) by (intros n; by apply clamp_index_in_range).
  unfold iloc, slice_range. cbn [from_option]. by rewrite !H0, !Hn.
Qed.

(** X14. Whatever the bounds (negative, reversed, beyond the table), [crop]
    raises nothing and never returns a larger table: what falls outside is
    clipped. *)
Theorem crop_never_enlarges (st : processor) (a : ndarray Q)
    (r0 : Z) (r1 : option Z) (c0 : Z) (c1 : option Z) :
  data st = Some a →
  ∃ d, data (crop r0 r1 c0 c1 st).1 = Some d ∧
    nrows d ≤ nrows a ∧ ncols d ≤ ncols a ∧ well_shaped d ∧
    (crop r0 r1 c0 c1 st).2 = [Print_cropped_shape (shape d)].
Proof.
  intros Hd. unfold crop. rewrite Hd. cbn [fst snd].
  set (d := iloc a _ _ _ _). exists d.
  split; [done|]. split_and!; [| | |done].
  all: pose proof (slice_range_fits (nrows a) (Some r0)
                     (Some (from_option id (Z.of_nat (nrows a)) r1))) as Hr.
  all: pose proof (slice_range_fits (ncols a) (Some c0)
                     (Some (from_option id (Z.of_nat (ncols a)) c1))) as Hc.
  all: unfold d, iloc.
  all: destruct (slice_range (nrows a) _ _) as [rs rn].
  all: destruct (slice_range (ncols a) _ _) as [cs cn].
  all: unfold well_shaped, nrows, ncols in *; simpl in *.
  - lia.
  - lia.
  - apply grid_length.
Qed.

Section Pipeline.

Variable read_csv : string → nat → option (ndarray Q).
Variable resize : ndarray Q → nat * nat → nat → bool → option (ndarray Q).
Variable to_csv_ok : out_path → bool.

(** X15. A load with [drop_first_column] keeps every row and every column
    but the first: cell (r, c) of the loaded table is cell (r, c + 1) of the
    table read.  Without it the table is kept as read. *)
Theorem load_csv_drops_first_column (path : string) (skiprows : nat) (t : ndarray Q)
    (st : processor) :
  read_csv path skiprows = Some t → well_shaped t →
  data (load_csv read_csv path skiprows false st).1 = Some t ∧
  ∃ d, data (load_csv read_csv path skiprows true st).1 = Some d ∧
    shape d = (nrows t, ncols t - 1) ∧
    ∀ r c, r < nrows t → c < ncols t - 1 → pixel d r c = pixel t r (S c).
Proof.
  intros Hread Hw. unfold load_csv. rewrite Hread. simpl. split; [done|].
  eexists. split; [done|].
  destruct (iloc_spec t None None (Some 1%Z) None Hw) as (Hsh & _ & Hpix).
  unfold slice_range in Hsh, Hpix. cbn [from_option fst snd] in Hsh, Hpix.
  destruct (decide (ncols t = 0)) as [H0|H0].
  - rewrite H0 in *. split; [by rewrite Hsh, Nat.sub_0_r|]. intros r c Hr Hc. lia.
  - assert (H1 : clamp_index (ncols t) 1 = 1).
    { apply (clamp_index_in_range (ncols t) 1). lia. }
    rewrite H1, Nat.sub_0_r in *. split; [done|].
    intros r c Hr Hc. by rewrite Hpix.
Qed.

(** One call adds at most one entry at the end of the history. *)
Lemma perform_history (c : call) (st : processor) :
  ∃ added, processing_history (perform read_csv resize to_csv_ok c st).1
             = processing_history st ++ added ∧ length added ≤ 1.
Proof.
  assert (Hnone : ∃ added, processing_history st = processing_history st ++ added
                           ∧ length added ≤ 1).
  { exists []. rewrite app_nil_r. split; [done | simpl; lia]. }
  assert (Hone : ∀ e, ∃ added, processing_history st ++ [e] = processing_history st ++ added
                           ∧ length added ≤ 1).
  { intros e. exists [e]. split; [done | simpl; lia]. }
  destruct c; simpl.
  - unfold load_csv. destruct (read_csv _ _); simpl; auto.
  - unfold crop. destruct (data st); simpl; auto.
  - unfold downsample. destruct (data st); simpl; [destruct (resize _ _ _ _); simpl|]; auto.
  - unfold visualize. destruct (data st); simpl; [destruct shown; simpl|]; auto.
  - unfold save. destruct (data st); simpl; [|auto].
    repeat case_match; simpl; auto.
Qed.

(** X16. The processing history is append-only: after any chain of calls
    the history before is a prefix of the history after, with at most one
    entry more per call. *)
Theorem history_is_append_only (cs : list call) (st : processor) :
  ∃ added,
    get_processing_history (chain read_csv resize to_csv_ok cs st)
      = get_processing_history st ++ added ∧
    length added ≤ length cs.
Proof.
  unfold get_processing_history. revert st.
  induction cs as [|c cs IH]; intros st.
  - exists []. by rewrite app_nil_r.
  - unfold chain in *. simpl.
    destruct (perform_history c st) as (a1 & H1 & Hl1).
    destruct (IH (perform read_csv resize to_csv_ok c st).1) as (a2 & H2 & Hl2).
    exists (a1 ++ a2). rewrite H2, H1, length_app, <- app_assoc. split; [done | lia].
Qed.

(** X17. Before a load has succeeded every other method is a no-op: a chain
    of crops, downsamplings, displays and saves on a processor without table
    returns the processor as it was. *)
Theorem methods_before_load_do_nothing (cs : list call) (st : processor) :
  data st = None → Forall (λ c, is_load_call c = false) cs →
  chain read_csv resize to_csv_ok cs st = st.
Proof.
  intros Hd Hcs. revert st Hd. induction Hcs as [|c cs Hc Hcs IH]; intros st Hd; [done|].
  unfold chain in *. simpl.
  assert (Hst : (perform read_csv resize to_csv_ok c st).1 = st).
  { destruct c; try done; simpl.
    - unfold crop. by rewrite Hd.
    - unfold downsample. by rewrite Hd.
    - unfold visualize. by rewrite Hd.
    - unfold save. by rewrite Hd. }
  rewrite Hst. by apply IH.
Qed.

(** What [save] returns is what it wrote. *)
Lemma save_returns_written now output_file suffix st p :
  (save to_csv_ok now output_file suffix st).2 = Some p →
  ∃ d, data st = Some d ∧ To_csv p d ∈ (save to_csv_ok now output_file suffix st).1.2 ∧
    (output_file = None ∨ output_file = Some p).
Proof.
  unfold save. destruct (data st) as [d|]; [|done].
  intros Hsaved. exists d. split; [done|].
  repeat case_match; simplify_eq; simpl in *; simplify_eq;
    (split; [apply elem_of_cons; by left | auto]).
Qed.

Lemma save_with_table now p suffix st d :
  data st = Some d → to_csv_ok p = true →
  save to_csv_ok now (Some p) suffix st
    = (mk_processor (data st) (file_path st) (processing_history st ++ [Saved p]),
       [To_csv p d; Print_saved p], Some p).
Proof. intros Hd Hok. unfold save. by rewrite Hd, Hok. Qed.

Lemma crop_keeps_table r0 r1 c0 c1 st :
  is_Some (data st) → is_Some (data (crop r0 r1 c0 c1 st).1).
Proof. intros [a Ha]. unfold crop. rewrite Ha. by eexists. Qed.

Lemma downsample_keeps_table size method st :
  is_Some (data st) → is_Some (data (downsample resize size method st).1).
Proof.
  intros [a Ha]. unfold downsample. rewrite Ha.
  destruct (resize _ _ _ _); simpl; [by eexists | by rewrite Ha].
Qed.

(** X18. A file that cannot be read is still written and reported as
    processed when the processor holds a table from before (the previous file
    of the batch): [load_csv] prints its error and the rest of the turn goes on
    with the old table.  Without crop and downsample parameters, what is
    written under the unreadable file's name is that old table itself. *)
Theorem process_file_after_failed_load (now dest : string) (cp : crop_params)
    (dp : downsample_params) (skiprows : nat) (drop : bool) (file_suffix : option string)
    (path : string) (st : processor) (a : ndarray Q) :
  read_csv path skiprows = None → data st = Some a →
  to_csv_ok (In_dir dest path (batch_suffix file_suffix dp)) = true →
  let turn := process_file read_csv resize to_csv_ok now dest cp dp skiprows drop
                file_suffix path st in
  let target := In_dir dest path (batch_suffix file_suffix dp) in
  turn.2 = Some target ∧
  Print_error_loading path ∈ turn.1.2 ∧
  (∃ d, To_csv target d ∈ turn.1.2) ∧
  (crop_params_given cp = false → downsample_params_given dp = false →
   To_csv target a ∈ turn.1.2).
Proof.
  intros Hread Hd Hok turn target. unfold turn, process_file, load_csv.
  rewrite Hread.
  set (st1 := mk_processor (data st) (Some path) (processing_history st)).
  assert (H1 : data st1 = Some a) by done.
  destruct (crop_params_given cp) eqn:Hcp.
  - pose proof (crop_keeps_table (default 0%Z (start_row cp)) (end_row cp)
                  (default 0%Z (start_col cp)) (end_col cp) st1 (mk_is_Some _ _ H1)) as H2.
    destruct (crop _ _ _ _ st1) as [st2 out2]. simpl in H2.
    destruct (downsample_params_given dp) eqn:Hdp.
    + pose proof (downsample_keeps_table (default (100, 100) (output_size dp))
                    (default "nearest" (method dp)) st2 H2) as [d3 H3].
      destruct (downsample _ _ _ st2) as [st3 out3]. simpl in H3.
      rewrite (save_with_table now _ None st3 d3) by done. simpl.
      split_and!; [done | in_list | exists d3; in_list | done].
    + destruct H2 as [d2 H2].
      rewrite (save_with_table now _ None st2 d2) by done. simpl.
      split_and!; [done | in_list | exists d2; in_list | done].
  - destruct (downsample_params_given dp) eqn:Hdp.
    + pose proof (downsample_keeps_table (default (100, 100) (output_size dp))
                    (default "nearest" (method dp)) st1 (mk_is_Some _ _ H1)) as [d3 H3].
      destruct (downsample _ _ _ st1) as [st3 out3]. simpl in H3.
      rewrite (save_with_table now _ None st3 d3) by done. simpl.
      split_and!; [done | in_list | exists d3; in_list | done].
    + rewrite (save_with_table now _ None st1 a) by done. simpl.
      split_and!; [done | in_list | exists a; in_list | intros _ _; in_list].
Qed.

(** X19. When the file can be read, its turn depends on the file alone:
    whatever the processor held before, the same messages are printed, the
    same table is written to the same path and the same table is left in the
    processor. *)
Theorem process_file_depends_on_file_only (now dest : string) (cp : crop_params)
    (dp : downsample_params) (skiprows : nat) (drop : bool) (file_suffix : option string)
    (path : string) (t : ndarray Q) (st st' : processor) :
  read_csv path skiprows = Some t →
  let turn := process_file read_csv resize to_csv_ok now dest cp dp skiprows drop
                file_suffix path in
  (turn st).1.2 = (turn st').1.2 ∧ (turn st).2 = (turn st').2 ∧
  data (turn st).1.1 = data (turn st').1.1.
Proof.
  intros Hread turn. unfold turn, process_file, load_csv. rewrite Hread.
  unfold crop, downsample, save. simpl.
  destruct (crop_params_given cp), (downsample_params_given dp); simpl;
    repeat (case_match; simpl in *; simplify_eq); done.
Qed.

Lemma process_file_saved now dest cp dp skiprows drop file_suffix path st :
  let turn := process_file read_csv resize to_csv_ok now dest cp dp skiprows drop
                file_suffix path st in
  turn.2 = None ∨
  (turn.2 = Some (In_dir dest path (batch_suffix file_suffix dp)) ∧
   ∃ d, To_csv (In_dir dest path (batch_suffix file_suffix dp)) d ∈ turn.1.2).
Proof.
  unfold process_file.
  destruct (load_csv _ _ _ _ st) as [st1 out1].
  destruct (if crop_params_given cp then _ else _) as [st2 out2].
  destruct (if downsample_params_given dp then _ else _) as [st3 out3].
  destruct (save to_csv_ok now _ None st3) as [[st4 out4] saved] eqn:Hsave. simpl.
  destruct saved as [p|]; [|by left]. right.
  destruct (save_returns_written now
              (Some (In_dir dest path (batch_suffix file_suffix dp))) None st3 p)
    as (d & _ & Hin & Hp); [by rewrite Hsave|].
  destruct Hp as [|[= <-]]; [done|]. rewrite Hsave in Hin. simpl in Hin.
  split; [done|]. exists d. in_list.
Qed.

(** X20. [batch_process] returns output paths only: the list it returns is,
    in order, the output names of some of the matched files (at most one per
    file), each of them has been handed a table to write, and the total it
    prints last is the length of that list. *)
Theorem batch_process_returns_written_outputs (now dest : string) (csv_files : list string)
    (cp : crop_params) (dp : downsample_params) (skiprows : nat) (drop : bool)
    (file_suffix : option string) (st : processor) :
  let run := batch_process read_csv resize to_csv_ok now dest csv_files cp dp skiprows drop
               file_suffix st in
  sublist run.2 (map (λ f, In_dir dest f (batch_suffix file_suffix dp)) csv_files) ∧
  (∀ p, p ∈ run.2 → ∃ d, To_csv p d ∈ run.1.2) ∧
  last run.1.2 = Some (Print_total (length run.2)).
Proof.
  intros run. unfold run, batch_process.
  assert (H : ∀ files st,
    let r := process_files read_csv resize to_csv_ok now dest cp dp skiprows drop
               file_suffix files st in
    sublist r.2 (map (λ f, In_dir dest f (batch_suffix file_suffix dp)) files) ∧
    ∀ p, p ∈ r.2 → ∃ d, To_csv p d ∈ r.1.2).
  { clear. induction files as [|f files IH]; intros st; simpl.
    - split; [done|]. by intros p ?%not_elem_of_nil.
    - pose proof (process_file_saved now dest cp dp skiprows drop file_suffix f st) as Hf.
      destruct (process_file _ _ _ _ _ _ _ _ _ _ _ st) as [[st1 out1] saved].
      specialize (IH st1).
      destruct (process_files _ _ _ _ _ _ _ _ _ _ _ st1) as [[st2 out2] rest].
      simpl in *. destruct IH as [IH1 IH2].
      destruct Hf as [->|[-> [d Hd]]]; simpl.
      + split; [by apply sublist_cons|].
        intros p Hp. destruct (IH2 p Hp) as [d Hd]. exists d. in_list.
      + split; [by apply sublist_skip|].
        intros p [->|Hp]%elem_of_cons; [exists d; in_list|].
        destruct (IH2 p Hp) as [d' Hd']. exists d'. in_list. }
  specialize (H csv_files st).
  destruct (process_files _ _ _ _ _ _ _ _ _ _ _ st) as [[st1 out] processed].
  simpl in *. destruct H as [H1 H2]. split_and!; [done| |].
  - intros p Hp. destruct (H2 p Hp) as [d Hd]. exists d. in_list.
  - rewrite app_comm_cons. apply last_snoc.
Qed.

End Pipeline.

End ProcessorFacts.

(** * Facts about the matrix-to-row converter *)

Module ConverterFacts.
Import Converter.

Lemma written_app out1 out2 : written (out1 ++ out2) = written out1 ++ written out2.
Proof. unfold written. apply omap_app. Qed.

Lemma max_list_same (m : nat) (ls : list nat) :
  ls ≠ [] → Forall (λ n, n = m) ls → max_list ls = m.
Proof.
  intros Hne Hall. induction Hall as [|n ls -> Hall IH]; [done|].
  simpl. destruct ls as [|n' ls]; [simpl; lia|]. rewrite IH by done. lia.
Qed.

(** Rows of one length make a table of that width, without filling. *)
Lemma DataFrame_same_length (m : nat) (rows : list (list cell)) :
  rows ≠ [] → Forall (λ row, length row = m) rows →
  DataFrame rows = mk_frame (length rows, m) rows.
Proof.
  intros Hne Hall. unfold DataFrame.
  assert (Hw : max_list (map length rows) = m).
  { apply max_list_same; [by destruct rows | by apply Forall_fmap]. }
  rewrite Hw. f_equal. clear Hne Hw.
  induction Hall as [|row rows Hrow Hall IH]; [done|]. simpl.
  unfold pad at 1. rewrite Hrow, Nat.sub_diag. simpl. by rewrite app_nil_r, IH.
Qed.

Section Functions.

Variable read_csv : string → option (ndarray Q).
Variable basename : string → string.
Variable exists_ : string → bool.

Lemma gather_rows n files : ∀ i,
  (gather read_csv basename n i files).1.1 = map flatten (omap read_csv files) ∧
  written (gather read_csv basename n i files).2 = [].
Proof.
  induction files as [|f files IH]; intros i; [done|]. simpl.
  destruct (IH (S i)) as [IH1 IH2].
  destruct (gather read_csv basename n (S i) files) as [[rows infos] out].
  simpl in *. destruct (read_csv f); simpl; by rewrite IH1.
Qed.

Lemma gather_specific_rows n files : ∀ i,
  (gather_specific read_csv basename exists_ n i files).1
    = map flatten (omap read_csv (filter (λ f, exists_ f = true) files)) ∧
  written (gather_specific read_csv basename exists_ n i files).2 = [].
Proof.
  induction files as [|f files IH]; intros i; [done|]. simpl.
  destruct (IH (S i)) as [IH1 IH2].
  destruct (gather_specific read_csv basename exists_ n (S i) files) as [rows out].
  simpl in *. destruct (exists_ f) eqn:Hex.
  - rewrite filter_cons_True by done. simpl.
    destruct (read_csv f); simpl; by rewrite IH1.
  - rewrite filter_cons_False by congruence. done.
Qed.

Lemma gather_with_filenames_rows n files : ∀ i,
  (gather_with_filenames read_csv basename n i files).1
    = omap (λ f, (λ a, Text (basename f) :: flatten a) <$> read_csv f) files ∧
  written (gather_with_filenames read_csv basename n i files).2 = [].
Proof.
  induction files as [|f files IH]; intros i; [done|]. simpl.
  destruct (IH (S i)) as [IH1 IH2].
  destruct (gather_with_filenames read_csv basename n (S i) files) as [rows out].
  simpl in *. destruct (read_csv f); simpl; by rewrite IH1.
Qed.

Lemma convert_multiple_written (folder_path output_file : string)
    (csv_files : list string) :
  written (convert_multiple_matrices_to_single_file read_csv basename
             folder_path output_file csv_files)
  = if decide (omap read_csv csv_files = []) then []
    else [(output_file, DataFrame (map flatten (omap read_csv csv_files)))].
Proof.
  unfold convert_multiple_matrices_to_single_file.
  destruct csv_files as [|f files]; [done|].
  destruct (gather_rows (length (f :: files)) (f :: files) 0) as [Hrows Hout].
  destruct (gather read_csv basename _ 0 (f :: files)) as [[rows infos] out].
  cbn [fst snd] in Hrows, Hout. subst rows.
  destruct (omap read_csv (f :: files)) as [|t tables].
  - rewrite decide_True by done.
    change (written ([Print_found (length (f :: files))] ++ out ++ [Print_none_processed]) = []).
    by rewrite !written_app, Hout.
  - rewrite decide_False by done. cbn [map].
    match goal with
    | |- written (?m :: out ++ ?l1 ++ ?l2) = _ =>
        change (written ([m] ++ out ++ l1 ++ l2) = [(output_file, DataFrame (map flatten (t :: tables)))])
    end.
    rewrite !written_app, Hout.
    assert (Hsum : ∀ infos, written (map (λ info, Print_summary_line (filename info)
                     (original_shape info) (flattened_length info)) infos) = []).
    { clear. induction infos as [|info infos IH]; [done|]. exact IH. }
    by rewrite Hsum.
Qed.

(** X21. [convert_multiple_matrices_to_single_file] writes at most once.
    When no matched file can be read it writes nothing; otherwise it writes,
    to the output file, the table whose rows are the flattened matrices of
    the readable files, in the order of the file list: a file that cannot be
    read is left out and does not disturb the others. *)
Theorem convert_multiple_writes_readable_files (folder_path output_file : string)
    (csv_files : list string) :
  written (convert_multiple_matrices_to_single_file read_csv basename
             folder_path output_file csv_files)
  = match omap read_csv csv_files with
    | [] => []
    | tables => [(output_file, DataFrame (map flatten tables))]
    end.
Proof.
  rewrite convert_multiple_written.
  destruct (omap read_csv csv_files) as [|t tables].
  - by rewrite decide_True.
  - by rewrite decide_False.
Qed.

Lemma omap_all_readable (P : ndarray Q → Prop) (files : list string) :
  Forall (λ f, ∃ a, read_csv f = Some a ∧ P a) files →
  Forall2 (λ f a, read_csv f = Some a ∧ P a) files (omap read_csv files).
Proof.
  induction 1 as [|f files (a & Hread & Ha) Hall IH]; [constructor|].
  simpl. rewrite Hread. simpl. by constructor.
Qed.

(** X22. When every matched file can be read and all the matrices have one
    shape, rows x cols, the table written has one row per file and
    rows * cols columns, and the row of the i-th file holds the cell (r, c)
    of its matrix in column r * cols + c. *)
Theorem convert_multiple_same_shape (folder_path output_file : string)
    (csv_files : list string) (sh : nat * nat) :
  csv_files ≠ [] →
  Forall (λ f, ∃ a, read_csv f = Some a ∧ shape a = sh ∧ well_shaped a) csv_files →
  ∃ df,
    written (convert_multiple_matrices_to_single_file read_csv basename
               folder_path output_file csv_files) = [(output_file, df)] ∧
    frame_shape df = (length csv_files, sh.1 * sh.2) ∧
    ∀ i f a r c, csv_files !! i = Some f → read_csv f = Some a →
      r < sh.1 → c < sh.2 →
      frame_rows df !! i ≫= (λ row, row !! (r * sh.2 + c)) = Number <$> pixel a r c.
Proof.
  intros Hne Hall. rewrite convert_multiple_written.
  pose proof (omap_all_readable (λ a, shape a = sh ∧ well_shaped a) csv_files Hall) as H2.
  set (tables := omap read_csv csv_files) in *.
  assert (Htne : tables ≠ []).
  { intros Hnil. rewrite Hnil in H2. apply Forall2_length in H2. by destruct csv_files. }
  rewrite decide_False by done.
  assert (Hlen : length tables = length csv_files) by (symmetry; by eapply Forall2_length).
  assert (Hrows : Forall (λ row, length row = sh.1 * sh.2) (map flatten tables)).
  { apply Forall_fmap. eapply Forall2_Forall_r; [exact H2|].
    apply Forall_true. intros f a (_ & Hsh & Hw). simpl.
    unfold flatten. rewrite length_map, Hw. unfold nrows, ncols. by rewrite Hsh. }
  destruct tables as [|t tables'] eqn:Htables.
  { destruct csv_files; [done | simpl in Hlen; lia]. }
  rewrite <- Htables in *.
  assert (Hne' : map flatten tables ≠ []) by by rewrite Htables.
  rewrite (DataFrame_same_length (sh.1 * sh.2) _ Hne' Hrows).
  eexists. split; [done|]. simpl. rewrite length_map, Hlen. split; [done|].
  intros i f a r c Hf Hread Hr Hc.
  destruct (Forall2_lookup_l _ _ _ _ _ H2 Hf) as (a' & Ha' & Hread' & Hsh & Hw).
  assert (a' = a) by congruence. subst a'.
  rewrite list_lookup_fmap, Ha'. simpl.
  unfold flatten. rewrite list_lookup_fmap.
  rewrite pixel_lookup by (unfold nrows, ncols; by rewrite Hsh).
  unfold ncols. by rewrite Hsh.
Qed.

(** X23. [convert_specific_files_to_single_file] writes what
    [convert_multiple_matrices_to_single_file] writes for those files of the
    list that exist: a missing file is announced and left out. *)
Theorem convert_specific_skips_missing_files (folder_path output_file : string)
    (file_list : list string) :
  written (convert_specific_files_to_single_file read_csv basename exists_
             file_list output_file)
  = written (convert_multiple_matrices_to_single_file read_csv basename folder_path
               output_file (filter (λ f, exists_ f = true) file_list)).
Proof.
  rewrite convert_multiple_written. unfold convert_specific_files_to_single_file.
  destruct (gather_specific_rows (length file_list) file_list 0) as [Hrows Hout].
  destruct (gather_specific read_csv basename exists_ _ 0 file_list) as [rows out].
  cbn [fst snd] in Hrows, Hout. subst rows.
  rewrite written_app, Hout.
  destruct (omap read_csv (filter (λ f, exists_ f = true) file_list)).
  - by rewrite decide_True.
  - by rewrite decide_False.
Qed.

(** X24. [convert_multiple_matrices_with_filenames] writes at most once, and
    every row of the table it writes starts with the base name of a matched
    file that could be read. *)
Theorem convert_with_filenames_rows (folder_path output_file : string)
    (csv_files : list string) :
  length (written (convert_multiple_matrices_with_filenames read_csv basename
                     folder_path output_file csv_files)) ≤ 1 ∧
  ∀ out df row,
    (out, df) ∈ written (convert_multiple_matrices_with_filenames read_csv basename
                           folder_path output_file csv_files) →
    row ∈ frame_rows df →
    out = output_file ∧
    ∃ f, f ∈ csv_files ∧ is_Some (read_csv f) ∧ head row = Some (Text (basename f)).
Proof.
  unfold convert_multiple_matrices_with_filenames.
  destruct csv_files as [|f files]; [split; [simpl; lia | by intros ??? ?%not_elem_of_nil]|].
  destruct (gather_with_filenames_rows (length (f :: files)) (f :: files) 0) as [Hrows Hout].
  destruct (gather_with_filenames read_csv basename _ 0 (f :: files)) as [rows out].
  cbn [fst snd] in Hrows, Hout.
  match goal with
  | |- context [written (?m :: out ++ ?l)] =>
      change (written (m :: out ++ l)) with (written ([m] ++ out ++ l))
  end.
  rewrite !written_app, Hout.
  destruct rows as [|row0 rows]; [split; [simpl; lia | by intros ??? ?%not_elem_of_nil]|].
  split; [simpl; lia|].
  intros o df row Hin Hrow. simpl in Hin.
  apply list_elem_of_singleton in Hin. injection Hin as -> ->. split; [done|].
  unfold DataFrame in Hrow. cbn [frame_rows] in Hrow.
  apply list_elem_of_fmap in Hrow as (row' & -> & Hrow').
  rewrite Hrows in Hrow'.
  apply list_elem_of_omap in Hrow' as (f' & Hf' & Hsome).
  destruct (read_csv f') as [a|] eqn:Hread; [|done]. simpl in Hsome. injection Hsome as <-.
  exists f'. split; [done|]. split; [by eexists|]. done.
Qed.

End Functions.

End ConverterFacts.

(** * Worked examples for the results above *)


Lemma session_points_in_image_witness :
  Forall (in_image (5, 5))
    (points (run even_odd_contains (Read_ok zeros_5x5)
               [left_click 1 1; left_click (9 # 2) 3; left_click 7 7] init).1).
Proof.
  refine (proj1 (session_points_in_image even_odd_contains (Read_ok zeros_5x5)
            [left_click 1 1; left_click (9 # 2) 3; left_click 7 7] _ zeros_5x5 eq_refl)).
  repeat constructor.
Defined.

Lemma fill_region_consumes_selection_witness :
  fill_region even_odd_contains [Press_ok (Some 50%Q)]
    (fill_region even_odd_contains [Press_ok (Some 99%Q)] square_selected).1
  = ((fill_region even_odd_contains [Press_ok (Some 99%Q)] square_selected).1,
     [Warn_select_region_first]).
Proof.
  apply (fill_region_consumes_selection even_odd_contains
           [Press_ok (Some 99%Q)] [Press_ok (Some 50%Q)] square_selected 99%Q).
  vm_compute. constructor.
Defined.

Lemma session_keeps_shape_witness :
  ∃ d, current_matrix (run_events even_odd_contains fill_twice loaded_5x5).1 = Some d ∧
       shape d = (5, 5).
Proof.
  apply (session_keeps_shape even_odd_contains init zeros_5x5 fill_twice).
  repeat constructor.
Defined.

Lemma create_polygon_mask_convention_witness :
  pixel (create_polygon_mask even_odd_contains [(1, 1); (3, 1); (3, 3); (1, 3)]%Z (5, 5)) 2 1
    = Some (even_odd_contains [(1, 1); (3, 1); (3, 3); (1, 3)]%Z (1, 2)%Z).
Proof.
  apply (create_polygon_mask_convention even_odd_contains
           [(1, 1); (3, 1); (3, 3); (1, 3)]%Z (5, 5) (1, 2)%Z).
  unfold in_image. simpl. lia.
Defined.


Module PipelineExamples.
Import Processor ProcessorFacts.

Lemma crop_in_range_witness :
  ∃ d, data (crop 1 (Some 3%Z) 1 (Some 3%Z) sample_processor).1 = Some d ∧
       shape d = (2, 2) ∧ pixel d 0 0 = Some 6%Q ∧ pixel d 1 1 = Some 11%Q.
Proof.
  destruct (crop_in_range sample_processor table_3x4 1 3 1 3)
    as (d & Hd & Hsh & _ & Hpix).
  - reflexivity.
  - reflexivity.
  - vm_compute. lia.
  - vm_compute. lia.
  - exists d. split; [exact Hd|]. split; [exact Hsh|].
    split; rewrite Hpix by lia; reflexivity.
Defined.

Lemma crop_negative_start_witness :
  ∃ d, data (crop (-1) None (-2) None sample_processor).1 = Some d ∧
       shape d = (1, 2) ∧ pixel d 0 0 = Some 11%Q ∧ pixel d 0 1 = Some 12%Q.
Proof.
  destruct (crop_negative_start sample_processor table_3x4 1 2) as (d & Hd & Hsh & Hpix).
  - reflexivity.
  - reflexivity.
  - vm_compute. lia.
  - vm_compute. lia.
  - exists d. split; [exact Hd|]. split; [exact Hsh|].
    split; rewrite Hpix by lia; reflexivity.
Defined.

Lemma crop_default_is_identity_witness :
  data (crop 0 None 0 None sample_processor).1 = Some table_3x4.
Proof.
  apply (crop_default_is_identity sample_processor table_3x4); reflexivity.
Defined.

Lemma crop_never_enlarges_witness :
  ∃ d, data (crop (-10) (Some 100%Z) 2 (Some 1%Z) sample_processor).1 = Some d ∧
       nrows d ≤ 3 ∧ ncols d ≤ 4.
Proof.
  destruct (crop_never_enlarges sample_processor table_3x4 (-10) (Some 100%Z) 2 (Some 1%Z))
    as (d & Hd & Hr & Hc & _).
  - reflexivity.
  - exists d. split; [exact Hd|]. split; [exact Hr | exact Hc].
Defined.

Lemma load_csv_drops_first_column_witness :
  ∃ d, data (load_csv (λ path _, sample_read_csv path) "a.csv" 10 true init).1 = Some d ∧
       shape d = (3, 3) ∧ pixel d 0 0 = Some 2%Q.
Proof.
  destruct (load_csv_drops_first_column (λ path _, sample_read_csv path) "a.csv" 10
              table_3x4 init) as (_ & d & Hd & Hsh & Hpix).
  - reflexivity.
  - reflexivity.
  - exists d. split; [exact Hd|]. split; [exact Hsh|].
    rewrite Hpix by (vm_compute; lia). reflexivity.
Defined.

Lemma methods_before_load_do_nothing_witness :
  chain (λ path _, sample_read_csv path) sample_resize (λ _, true)
    [Call_crop 1 (Some 2%Z) 0 None; Call_downsample (100, 100) "nearest";
     Call_save "20240101_000000" None (Some "cropped")] init = init.
Proof.
  apply (methods_before_load_do_nothing (λ path _, sample_read_csv path) sample_resize
           (λ _, true)).
  - reflexivity.
  - repeat constructor.
Defined.

Lemma process_file_after_failed_load_witness :
  To_csv (In_dir "out" "unreadable.csv" "processed") table_3x4
    ∈ (process_file (λ path _, sample_read_csv path) sample_resize (λ _, true)
         "20240101_000000" "out" (mk_crop_params None None None None)
         (mk_downsample_params None None) 10 true None "unreadable.csv"
         sample_processor).1.2.
Proof.
  apply (process_file_after_failed_load (λ path _, sample_read_csv path) sample_resize
           (λ _, true) "20240101_000000" "out" (mk_crop_params None None None None)
           (mk_downsample_params None None) 10 true None "unreadable.csv"
           sample_processor table_3x4); reflexivity.
Defined.

Lemma process_file_depends_on_file_only_witness :
  (process_file (λ path _, sample_read_csv path) sample_resize (λ _, true)
     "20240101_000000" "out" (mk_crop_params (Some 1%Z) None None None)
     (mk_downsample_params (Some (2, 2)) None) 10 true (Some "small") "a.csv" init).2
  = (process_file (λ path _, sample_read_csv path) sample_resize (λ _, true)
       "20240101_000000" "out" (mk_crop_params (Some 1%Z) None None None)
       (mk_downsample_params (Some (2, 2)) None) 10 true (Some "small") "a.csv"
       sample_processor).2.
Proof.
  apply (process_file_depends_on_file_only (λ path _, sample_read_csv path) sample_resize
           (λ _, true) "20240101_000000" "out" (mk_crop_params (Some 1%Z) None None None)
           (mk_downsample_params (Some (2, 2)) None) 10 true (Some "small") "a.csv"
           table_3x4 init sample_processor).
  reflexivity.
Defined.

(** A batch over a readable and an unreadable file: both are reported, and
    the second output holds the first file's table, cropped a second time. *)
Example batch_with_unreadable_file :
  let run := batch_process (λ path _, sample_read_csv path) sample_resize (λ _, true)
               "20240101_000000" "out" ["a.csv"; "unreadable.csv"]
               (mk_crop_params (Some 1%Z) None None None) (mk_downsample_params None None)
               0 false None init in
  run.2 = [In_dir "out" "a.csv" "processed"; In_dir "out" "unreadable.csv" "processed"] ∧
  To_csv (In_dir "out" "a.csv" "processed")
    (mk_ndarray float64 (2, 4) [5; 6; 7; 8; 9; 10; 11; 12]%Q) ∈ run.1.2 ∧
  To_csv (In_dir "out" "unreadable.csv" "processed")
    (mk_ndarray float64 (1, 4) [9; 10; 11; 12]%Q) ∈ run.1.2.
Proof. vm_compute. split; [done|]. split; repeat constructor. Qed.

End PipelineExamples.

Module ConverterExamples.
Import Converter ConverterFacts.

Lemma convert_multiple_same_shape_witness :
  ∃ df,
    written (convert_multiple_matrices_to_single_file sample_read_csv id
               "folder" "combined.csv" ["a.csv"; "b.csv"]) = [("combined.csv", df)] ∧
    frame_shape df = (2, 12).
Proof.
  destruct (convert_multiple_same_shape sample_read_csv id "folder" "combined.csv"
              ["a.csv"; "b.csv"] (3, 4)) as (df & Hw & Hsh & _).
  - discriminate.
  - repeat constructor; exists table_3x4; repeat split; reflexivity.
  - exists df. split; [exact Hw | exact Hsh].
Defined.

(** Of three files one of which cannot be read, two rows are written. *)
Example convert_multiple_skips_unreadable :
  written (convert_multiple_matrices_to_single_file sample_read_csv id
             "folder" "combined.csv" ["a.csv"; "broken.csv"; "b.csv"])
  = [("combined.csv", DataFrame [flatten table_3x4; flatten table_3x4])].
Proof. reflexivity. Qed.

End ConverterExamples.
